(** * Stripe cartridge for B2C Commerce: controller helpers and payment hooks

    A shallow embedding of
    - [cartridge/scripts/stripe/helpers/controllers/stripePaymentsHelper.js]
      ([generateCardsPaymentResponse], [beforePaymentAuthorization],
      [handleAPM]) and
    - the payment hook script ([authorizeCreditCard], [authorize]),
    together with the properties of these handlers.

    Script code runs in a state-and-exception monad: a thrown JavaScript
    error leaves the store as it was at the point of the throw, except
    inside [Transaction.wrap], which restores the store it started from. *)

From Stdlib Require Import ZArith List String Ascii Bool Lia.
From Stdlib Require Import Floats.SpecFloat.
Import ListNotations.

Local Open Scope string_scope.

(** ** JavaScript values, errors and the script monad *)

Module Js.

(** Values read back from [JSON.parse]. *)
#[local] Unset Elimination Schemes.
Inductive json : Type :=
| JNull
| JBool (b : bool)
| JNumber (n : spec_float)
| JString (s : string)
| JArray (items : list json)
| JObject (props : list (string * json)).
#[local] Set Elimination Schemes.

(** A value that may be [undefined]. *)
Inductive value : Type :=
| Undefined
| Val (j : json).

(** The text handed to [JSON.parse].  The scripts never inspect it in
    any other way, so it is kept as what the parser makes of it: the
    value it denotes, or no value at all. *)
Inductive responseText : Type :=
| JsonText (j : json)
| MalformedText.

(** [dw.svc.Result] as far as the scripts read it. *)
Record CallResult : Type := { errorMessage : responseText }.

Inductive ErrorName : Type := PlainError | TypeError | SyntaxError.

(** A thrown error object: [e.message] and the optional [e.callResult]
    that the service layer attaches to a failed remote call. *)
Record JsError : Type := mkError {
  name : ErrorName;
  message : string;
  callResult : option CallResult
}.

(** [new Error(msg)] *)
Definition Error (msg : string) : JsError := mkError PlainError msg None.

(** The error the engine raises when a property is read from [undefined]
    or [null]; the wording of its message is the engine's. *)
Definition cannot_read (prop : string) : JsError :=
  mkError TypeError ("Cannot read property " ++ prop ++ " of undefined or null") None.

Definition unexpected_token : JsError :=
  mkError SyntaxError "Unexpected token in JSON" None.

Inductive result (A : Type) : Type :=
| Ok (a : A)
| Throw (e : JsError).
Arguments Ok {A} a.
Arguments Throw {A} e.

(** [JSON.parse(text)] *)
Definition JSON_parse (t : responseText) : result json :=
  match t with
  | JsonText j => Ok j
  | MalformedText => Throw unexpected_token
  end.

Fixpoint assoc (k : string) (props : list (string * json)) : value :=
  match props with
  | [] => Undefined
  | (k', v) :: rest => if String.eqb k k' then Val v else assoc k rest
  end.

(** [v.prop] for the property names the scripts read ([error], [code],
    [message]): only objects own them; reading from [undefined] or
    [null] throws. *)
Definition getProp (v : value) (prop : string) : result value :=
  match v with
  | Undefined | Val JNull => Throw (cannot_read prop)
  | Val (JObject props) => Ok (assoc prop props)
  | Val _ => Ok Undefined
  end.

(** A string that may be [undefined] or [null]. *)
Inductive nullable_string : Type :=
| NoString                 (* undefined *)
| NullString               (* null *)
| Str (s : string).

(** [a === b] on such values. *)
Definition strict_eq (a b : nullable_string) : bool :=
  match a, b with
  | NoString, NoString => true
  | NullString, NullString => true
  | Str x, Str y => String.eqb x y
  | _, _ => false
  end.

(** Truthiness of a string-or-null attribute: [null], [undefined] and
    the empty string are falsy. *)
Definition truthy (s : option string) : bool :=
  match s with
  | None => false
  | Some EmptyString => false
  | Some _ => true
  end.

(** Script computations over a persistent store [St], with a log of the
    observable actions of type [Act]. *)
Section Monad.
Variables St Act : Type.

Inductive Event : Type :=
| TxBegin
| TxCommit
| TxRollback
| Do (a : Act).

Record World : Type := mkWorld { store : St; log : list Event }.

Definition M (A : Type) : Type := World -> result A * World.

Definition ret {A} (a : A) : M A := fun w => (Ok a, w).

Definition throw {A} (e : JsError) : M A := fun w => (Throw e, w).

Definition bind {A B} (m : M A) (k : A -> M B) : M B :=
  fun w =>
    match m w with
    | (Ok a, w') => k a w'
    | (Throw e, w') => (Throw e, w')
    end.

Definition lift {A} (r : result A) : M A := fun w => (r, w).

Definition emit (ev : Event) : M unit :=
  fun w => (Ok tt, mkWorld (store w) (log w ++ [ev])).

Definition get : M St := fun w => (Ok (store w), w).

Definition modify (f : St -> St) : M unit :=
  fun w => (Ok tt, mkWorld (f (store w)) (log w)).

(** [try { body } catch (e) { handler(e) }] *)
Definition try_catch {A} (body : M A) (handler : JsError -> M A) : M A :=
  fun w =>
    match body w with
    | (Ok a, w') => (Ok a, w')
    | (Throw e, w') => handler e w'
    end.

(** [Transaction.wrap(callback)]: the callback runs inside a
    transaction, which is committed when it returns and rolled back,
    the error being thrown on, when it throws. *)
Definition Transaction_wrap {A} (callback : M A) : M A :=
  fun w =>
    match callback (mkWorld (store w) (log w ++ [TxBegin])) with
    | (Ok a, w') => (Ok a, mkWorld (store w') (log w' ++ [TxCommit]))
    | (Throw e, w') => (Throw e, mkWorld (store w) (log w' ++ [TxRollback]))
    end.
End Monad.

Arguments TxBegin {Act}.
Arguments TxCommit {Act}.
Arguments TxRollback {Act}.
Arguments Do {Act} a.
Arguments mkWorld {St Act} store log.
Arguments store {St Act} w.
Arguments log {St Act} w.
Arguments ret {St Act A} a.
Arguments throw {St Act A} e.
Arguments bind {St Act A B} m k.
Arguments lift {St Act A} r.
Arguments emit {St Act} ev.
Arguments get {St Act}.
Arguments modify {St Act} f.
Arguments try_catch {St Act A} body handler.
Arguments Transaction_wrap {St Act A} callback.

Definition rbind {A B} (r : result A) (k : A -> result B) : result B :=
  match r with
  | Ok a => k a
  | Throw e => Throw e
  end.

End Js.

Import Js.

Declare Scope js_scope.
Delimit Scope js_scope with js.
Notation "x <- m ;; k" := (bind m (fun x => k))
  (at level 61, m at next level, right associativity) : js_scope.
Notation "m ;; k" := (bind m (fun _ => k))
  (at level 61, right associativity) : js_scope.

(** ** stripePaymentsHelper.js *)

Module StripePaymentsHelper.

(** The remote PaymentIntent, as far as the helper reads it. *)
Record NextAction : Type := { type : string }.

Record PaymentIntent : Type := {
  id : string;
  status : string;
  next_action : option NextAction;   (* [None]: null or absent *)
  client_secret : string;
  review : option string             (* [None]: null or absent *)
}.

(** Payloads handed back to the storefront. *)
Inductive ResponsePayload : Type :=
| RequiresAction (payment_intent_client_secret : string)
    (* { requires_action: true, payment_intent_client_secret: ... } *)
| Success
    (* { success: true } *)
| ErrorText (error : string)
    (* { error: '...' } *)
| ErrorEnvelope (code message : value)
    (* { error: { code: ..., message: ... } } *)
| ErrorMessage (message : string).
    (* { error: { message: ... } } *)

(** [intent.next_action.type] *)
Definition next_action_type (intent : PaymentIntent) : result string :=
  match next_action intent with
  | Some na => Ok (type na)
  | None => Throw (cannot_read "type")
  end.

(** Creates the response payload of [beforePaymentAuthorization] from
    the status of a payment intent.  The first test,
    [intent.status === 'requires_action' && intent.next_action.type === 'use_stripe_sdk'],
    reads [next_action] only when the status is requires_action. *)
Definition generateCardsPaymentResponse (intent : PaymentIntent)
  : result ResponsePayload :=
  rbind
    (if String.eqb (status intent) "requires_action"
     then rbind (next_action_type intent)
                (fun t => Ok (String.eqb t "use_stripe_sdk"))
     else Ok false)
    (fun tell_client =>
       if tell_client then
         Ok (RequiresAction (client_secret intent))
       else if String.eqb (status intent) "succeeded" then
         Ok Success
       else
         Ok (ErrorText "Invalid PaymentIntent status")).

(** *** beforePaymentAuthorization *)

(** [dw.order.PaymentInstrument], as far as the helper reads it. *)
Record PaymentInstrument : Type := { paymentMethod : string }.

(** [basket.custom] *)
Record Custom : Type := {
  stripePaymentIntentID : option string;        (* [None]: not set *)
  stripeIsPaymentIntentInReview : option bool   (* [None]: not set *)
}.

Record Basket : Type := {
  custom : Custom;
  paymentInstruments : list PaymentInstrument
}.

Definition set_stripePaymentIntentID (v : string) (b : Basket) : Basket :=
  {| custom := {| stripePaymentIntentID := Some v;
                  stripeIsPaymentIntentInReview :=
                    stripeIsPaymentIntentInReview (custom b) |};
     paymentInstruments := paymentInstruments b |}.

Definition set_stripeIsPaymentIntentInReview (v : bool) (b : Basket) : Basket :=
  {| custom := {| stripePaymentIntentID := stripePaymentIntentID (custom b);
                  stripeIsPaymentIntentInReview := Some v |};
     paymentInstruments := paymentInstruments b |}.

(** [checkoutHelper.js] is a collaborator of this file: its three
    functions are taken as given, each returning or throwing. *)
Record CheckoutHelper : Type := {
  getStripePaymentInstrument : Basket -> result (option PaymentInstrument);
  confirmPaymentIntent : string -> result PaymentIntent;
  createPaymentIntent : PaymentInstrument -> result PaymentIntent
}.

(** What the handler does to the outside: calls to the processor and
    writes to the basket. *)
Inductive Action : Type :=
| ConfirmPaymentIntent (paymentIntentId : string)
| CreatePaymentIntent (instrument : PaymentInstrument)
| WriteStripePaymentIntentID (v : string)
| WriteStripeIsPaymentIntentInReview (v : bool).

(** The store is the session's current basket, if there is one. *)
Definition Session : Type := option Basket.
Definition Script : Type -> Type := M Session Action.

Definition string_of (s : option string) : string :=
  match s with
  | Some v => v
  | None => EmptyString
  end.

Local Open Scope js_scope.

(** [BasketMgr.getCurrentBasket()] *)
Definition BasketMgr_getCurrentBasket : Script (option Basket) := get.

(** [basket.custom.stripePaymentIntentID = v] *)
Definition write_stripePaymentIntentID (v : string) : Script unit :=
  modify (option_map (set_stripePaymentIntentID v)) ;;
  emit (Do (WriteStripePaymentIntentID v)).

(** [basket.custom.stripeIsPaymentIntentInReview = v] *)
Definition write_stripeIsPaymentIntentInReview (v : bool) : Script unit :=
  modify (option_map (set_stripeIsPaymentIntentInReview v)) ;;
  emit (Do (WriteStripeIsPaymentIntentInReview v)).

Section BeforePaymentAuthorization.
Variable checkoutHelper : CheckoutHelper.

(** The branch taken for a Stripe instrument of method CREDIT_CARD. *)
Definition cards_payment (basket : Basket) (stripePaymentInstrument : PaymentInstrument)
  : Script (option ResponsePayload) :=
  let paymentIntentId := stripePaymentIntentID (custom basket) in
  paymentIntent <-
    (if truthy paymentIntentId then
       emit (Do (ConfirmPaymentIntent (string_of paymentIntentId))) ;;
       lift (confirmPaymentIntent checkoutHelper (string_of paymentIntentId))
     else
       emit (Do (CreatePaymentIntent stripePaymentInstrument)) ;;
       paymentIntent <- lift (createPaymentIntent checkoutHelper stripePaymentInstrument) ;;
       Transaction_wrap (write_stripePaymentIntentID (id paymentIntent)) ;;
       ret paymentIntent) ;;
  (if truthy (review paymentIntent) then
     Transaction_wrap (write_stripeIsPaymentIntentInReview true)
   else ret tt) ;;
  responsePayload <- lift (generateCardsPaymentResponse paymentIntent) ;;
  ret (Some responsePayload).

Definition bpa_try : Script (option ResponsePayload) :=
  basket <- BasketMgr_getCurrentBasket ;;
  match basket with
  | Some basket =>
      stripePaymentInstrument <- lift (getStripePaymentInstrument checkoutHelper basket) ;;
      match stripePaymentInstrument with
      | Some instrument =>
          if String.eqb (paymentMethod instrument) "CREDIT_CARD"
          then cards_payment basket instrument
          else ret (Some Success)
      | None => ret (Some Success)
      end
  | None => ret None          (* responsePayload is never assigned *)
  end.

Definition bpa_catch (e : JsError) : Script (option ResponsePayload) :=
  match callResult e with
  | Some cr =>
      o <- lift (JSON_parse (errorMessage cr)) ;;
      error <- lift (getProp (Val o) "error") ;;
      code <- lift (getProp error "code") ;;
      error <- lift (getProp (Val o) "error") ;;
      message <- lift (getProp error "message") ;;
      ret (Some (ErrorEnvelope code message))
  | None => ret (Some (ErrorMessage (message e)))
  end.

(** The value returned is [None] when [responsePayload] is still
    [undefined] at the [return]. *)
Definition beforePaymentAuthorization : Script (option ResponsePayload) :=
  try_catch bpa_try bpa_catch.
End BeforePaymentAuthorization.

(** *** handleAPM *)

(** The remote Source, as far as the helper reads it. *)
Record Source : Type := {
  source_client_secret : nullable_string;
  source_status : string
}.

(** [request.httpParameterMap]: the [stringValue] of the two parameters,
    which is [null] for a missing parameter. *)
Record HttpParameterMap : Type := {
  param_source : nullable_string;
  param_client_secret : nullable_string
}.

(** [URLUtils.url(action, name1, value1, ...)] *)
Record URL : Type := {
  action : string;
  parameters : list (string * string)
}.

Definition URLUtils_url (action : string) (parameters : list (string * string)) : URL :=
  {| action := action; parameters := parameters |}.

(** [a !== b] *)
Definition strict_neq (a b : nullable_string) : bool := negb (strict_eq a b).

(** [xs.indexOf(x)] *)
Fixpoint indexOf_from (i : Z) (xs : list string) (x : string) : Z :=
  match xs with
  | [] => (-1)%Z
  | y :: rest => if String.eqb y x then i else indexOf_from (i + 1)%Z rest x
  end.

Definition indexOf (xs : list string) (x : string) : Z := indexOf_from 0%Z xs x.

Section HandleAPM.
(** [stripeService.sources.retrieve] *)
Variable sources_retrieve : nullable_string -> result Source.

Definition apm_try (sfra : bool) (sourceId sourceClientSecret : nullable_string)
  : result URL :=
  rbind (sources_retrieve sourceId) (fun source =>
    if strict_neq (source_client_secret source) sourceClientSecret then
      Throw (Error "Source client secret mismatch")
    else if (indexOf ["chargeable"; "pending"] (source_status source) <? 0)%Z then
      Throw (Error "Source not authorized.")
    else if sfra then
      Ok (URLUtils_url "Checkout-Begin" [("stage", "placeOrder")])
    else
      Ok (URLUtils_url "COSummary-Start" [])).

Definition apm_catch (sfra : bool) (e : JsError) : URL :=
  if sfra then
    URLUtils_url "Checkout-Begin"
      [("stage", "payment"); ("apm_return_error", message e)]
  else
    URLUtils_url "COBilling-Start" [("apm_return_error", message e)].

Definition handleAPM (sfra : bool) (paramsMap : HttpParameterMap) : URL :=
  let sourceId := param_source paramsMap in
  let sourceClientSecret := param_client_secret paramsMap in
  match apm_try sfra sourceId sourceClientSecret with
  | Ok redirectUrl => redirectUrl
  | Throw e => apm_catch sfra e
  end.
End HandleAPM.

End StripePaymentsHelper.

(** ** JavaScript numbers

    A Number is an IEEE 754 binary64 value; the operations are those of
    the standard library's executable specification of binary64. *)

Module Number.

Definition prec : Z := 53.
Definition emax : Z := 1024.

Definition number : Type := spec_float.

(** [x * y] *)
Definition mul (x y : number) : number := SFmul prec emax x y.

(** The Number nearest to an integer (the integer itself below 2^53). *)
Definition of_Z (n : Z) : number := binary_normalize prec emax n 0 false.

(** [Math.pow(10, n)] for a digit count [n]. *)
Definition Math_pow10 (n : nat) : number := of_Z (10 ^ Z.of_nat n).

(** floor(v + 1/2) for v = [sm] * 2^(-k), [k] > 0. *)
Definition round_half_up (sm : Z) (k : Z) : Z :=
  (2 * sm + 2 ^ k) / 2 ^ (k + 1).

(** [Math.round(x)]: the integer nearest to [x], ties going up; NaN,
    the infinities, the zeros and integers are returned as they are. *)
Definition Math_round (x : number) : number :=
  match x with
  | S754_finite s m e =>
      if (0 <=? e)%Z then x
      else binary_normalize prec emax
             (round_half_up (cond_Zopp s (Zpos m)) (- e)) 0 s
  | _ => x
  end.

Local Open Scope Z_scope.

(** [x] is the whole number [k]. *)
Definition is_integer (x : number) (k : Z) : Prop :=
  match x with
  | S754_zero _ => k = 0
  | S754_finite s m e =>
      if 0 <=? e then cond_Zopp s (Zpos m) * 2 ^ e = k
      else cond_Zopp s (Zpos m) = k * 2 ^ (- e)
  | _ => False
  end.

(** [a] is a normal Number below 2^53 in magnitude (or a zero) that lies
    within half a unit in the last place of [k] / 10^[fd]. *)
Definition nearest_decimal (fd : nat) (a : number) (k : Z) : Prop :=
  match a with
  | S754_zero _ => k = 0
  | S754_finite s ma ea =>
      2 ^ 52 <= Zpos ma < 2 ^ 53
      /\ -1074 <= ea <= 0
      /\ 2 * Z.abs (10 ^ Z.of_nat fd * cond_Zopp s (Zpos ma) - k * 2 ^ (- ea))
         <= 10 ^ Z.of_nat fd
  | _ => False
  end.

(** What a shift record says about the bits shifted out of [M]:
    [rem] of them, out of a range of [B]. *)
Definition locates (r s : bool) (B rem : Z) : Prop :=
  match r, s with
  | false, false => rem = 0
  | false, true => 0 < rem /\ 2 * rem < B
  | true, false => 2 * rem = B
  | true, true => B < 2 * rem
  end.

Definition shifted (M B : Z) (mrs : shr_record) : Prop :=
  0 <= shr_m mrs
  /\ exists rem, M = shr_m mrs * B + rem /\ 0 <= rem < B
                 /\ locates (shr_r mrs) (shr_s mrs) B rem.

End Number.

(** ** The payment hooks: authorizeCreditCard and authorize *)

Module StripeHooks.

Import Number.

(** [dw.value.Money] *)
Record Money : Type := {
  available : bool;
  value : number;
  currencyCode : string
}.

(** [dw.order.OrderPaymentInstrument], as far as the hook reads it;
    [amount] is [paymentTransaction.amount]. *)
Record OrderPaymentInstrument : Type := {
  amount : Money;
  creditCardNumber : string;
  creditCardExpirationMonth : Z;
  creditCardExpirationYear : Z
}.

(** [dw.order.OrderAddress]; [None] is [null]. *)
Record OrderAddress : Type := {
  city : option string;
  countryCode : option string;    (* the [value] of the code, if there is a code *)
  address1 : option string;
  postalCode : option string;
  stateCode : option string;      (* the [value] of the code, if there is a code *)
  fullName : option string;
  phone : option string
}.

(** [Order.PAYMENT_STATUS_*] *)
Inductive PaymentStatus : Type :=
| PAYMENT_STATUS_NOTPAID
| PAYMENT_STATUS_PARTPAID
| PAYMENT_STATUS_PAID.

Record Order : Type := {
  orderNo : string;
  customerEmail : option string;
  billingAddress : option OrderAddress;
  stripePaymentIntentID : option string;   (* [order.custom.stripePaymentIntentID] *)
  paymentStatus : PaymentStatus
}.

Definition set_stripePaymentIntentID (v : string) (o : Order) : Order :=
  {| orderNo := orderNo o;
     customerEmail := customerEmail o;
     billingAddress := billingAddress o;
     stripePaymentIntentID := Some v;
     paymentStatus := paymentStatus o |}.

Definition set_paymentStatus (v : PaymentStatus) (o : Order) : Order :=
  {| orderNo := orderNo o;
     customerEmail := customerEmail o;
     billingAddress := billingAddress o;
     stripePaymentIntentID := stripePaymentIntentID o;
     paymentStatus := v |}.

(** The request bodies sent to the processor. *)
Record Address : Type := {
  address_city : option string;
  address_country : string;
  address_line1 : option string;
  address_postal_code : option string;
  address_state : string
}.

Record BillingDetails : Type := {
  address : Address;
  email : option string;    (* [None]: property not added *)
  name : option string;
  phone_number : option string
}.

Record Card : Type := {
  number_ : string;
  exp_month : Z;
  exp_year : Z;
  cvc : string
}.

Record PaymentMethodRequest : Type := {
  pm_type : string;
  card : Card;
  billing_details : BillingDetails
}.

Record PaymentIntentRequest : Type := {
  pi_amount : number;
  currency : string;
  payment_method : string;
  description : string;
  metadata_order_id : string;
  metadata_site_id : string;
  confirm : bool;
  moto : bool
}.

(** The replies, as far as the hook reads them. *)
Record PaymentMethod : Type := { pm_id : string }.
Record PaymentIntent : Type := { pi_id : string; pi_status : string }.

Record Currency : Type := { defaultFractionDigits : nat }.

(** What surrounds the hook: the platform and the Stripe service. *)
Record Platform : Type := {
  Currency_getCurrency : string -> option Currency;
  Site_getCurrent_getID : string;
  paymentMethods_create : PaymentMethodRequest -> result PaymentMethod;
  paymentIntents_create : PaymentIntentRequest -> result PaymentIntent;
  (* [order.setPaymentStatus] returns, or throws the given error *)
  setPaymentStatus_throws : option JsError
}.

(** [dw.system.Status] *)
Inductive StatusLevel : Type := OK | ERROR.

Record Status : Type := new_Status {
  status_level : StatusLevel;
  status_message : Js.value      (* the second argument; [Undefined] when omitted *)
}.

Inductive Action : Type :=
| LoggerDebug
| LoggerError (msg : string)
| PaymentMethodsCreate (req : PaymentMethodRequest)
| PaymentIntentsCreate (req : PaymentIntentRequest)
| WriteStripePaymentIntentID (v : string)
| SetPaymentStatus (v : PaymentStatus).

Definition Script : Type -> Type := M Order Action.

(** [s.toLowerCase()] on ASCII letters. *)
Definition lower (c : ascii) : ascii :=
  let n := nat_of_ascii c in
  if andb (65 <=? n)%nat (n <=? 90)%nat then ascii_of_nat (n + 32) else c.

Fixpoint toLowerCase (s : string) : string :=
  match s with
  | EmptyString => EmptyString
  | String c rest => String (lower c) (toLowerCase rest)
  end.

(** The value handed over when a property of a possibly-null object is
    read. *)
Definition read {A} (o : option A) (prop : string) : result A :=
  match o with
  | Some a => Ok a
  | None => Throw (cannot_read prop)
  end.

Definition keep_truthy (s : option string) : option string :=
  if truthy s then s else None.

Local Open Scope js_scope.

Section Hooks.
Variable dw : Platform.

(** Lines 33 to 35: the amount in the currency's minor unit. *)
Definition minor_units (amount_value : number) (currentCurency : Currency) : number :=
  let multiplier := Math_pow10 (defaultFractionDigits currentCurency) in
  Math_round (mul amount_value multiplier).

Definition billingDetails_of (order : Order) (address : OrderAddress)
  : result BillingDetails :=
  rbind (read (countryCode address) "value") (fun country =>
    Ok {| address := {| address_city := city address;
                        address_country := country;
                        address_line1 := address1 address;
                        address_postal_code := postalCode address;
                        address_state := match stateCode address with
                                         | Some v => v
                                         | None => EmptyString
                                         end |};
          email := keep_truthy (customerEmail order);
          name := keep_truthy (fullName address);
          phone_number := keep_truthy (phone address) |}).

(** [order.custom.stripePaymentIntentID = v] *)
Definition write_stripePaymentIntentID (v : string) : Script unit :=
  modify (set_stripePaymentIntentID v) ;;
  emit (Do (WriteStripePaymentIntentID v)).

(** [order.setPaymentStatus(v)] *)
Definition setPaymentStatus (v : PaymentStatus) : Script unit :=
  match setPaymentStatus_throws dw with
  | Some e => throw e
  | None => modify (set_paymentStatus v) ;; emit (Do (SetPaymentStatus v))
  end.

Definition authorize_try (paymentInstrument : OrderPaymentInstrument) (cvc : string)
  : Script unit :=
  let amount := amount paymentInstrument in
  (if negb (available amount)
   then throw (Error "paymentInstrument.amount not available")
   else ret tt) ;;
  currentCurency <-
    lift (read (Currency_getCurrency dw (currencyCode amount))
               "getDefaultFractionDigits") ;;
  let orderAmount := minor_units (value amount) currentCurency in
  order <- get ;;
  address <- lift (read (billingAddress order) "city") ;;
  billingDetails <- lift (billingDetails_of order address) ;;
  let pm_request :=
    {| pm_type := "card";
       card := {| number_ := creditCardNumber paymentInstrument;
                  exp_month := creditCardExpirationMonth paymentInstrument;
                  exp_year := creditCardExpirationYear paymentInstrument;
                  cvc := cvc |};
       billing_details := billingDetails |} in
  emit (Do (PaymentMethodsCreate pm_request)) ;;
  paymentMethod <- lift (paymentMethods_create dw pm_request) ;;
  let pi_request :=
    {| pi_amount := orderAmount;
       currency := toLowerCase (currencyCode amount);
       payment_method := pm_id paymentMethod;
       description := "MOTO transacion";
       metadata_order_id := orderNo order;
       metadata_site_id := Site_getCurrent_getID dw;
       confirm := true;
       moto := true |} in
  emit (Do (PaymentIntentsCreate pi_request)) ;;
  paymentIntent <- lift (paymentIntents_create dw pi_request) ;;
  if String.eqb (pi_status paymentIntent) "succeeded" then
    Transaction_wrap
      (write_stripePaymentIntentID (pi_id paymentIntent) ;;
       setPaymentStatus PAYMENT_STATUS_PAID)
  else
    throw (Error "Transaction auhtorization was not successful").

Definition authorize_catch (e : JsError) : Script Status :=
  m <- match callResult e with
       | Some cr =>
           o <- lift (JSON_parse (errorMessage cr)) ;;
           error <- lift (getProp (Val o) "error") ;;
           lift (getProp error "message")
       | None => ret (Val (JString (message e)))
       end ;;
  emit (Do (LoggerError (message e))) ;;
  ret (new_Status ERROR m).

Definition authorizeCreditCard (paymentInstrument : OrderPaymentInstrument)
    (cvc : string) : Script Status :=
  emit (Do LoggerDebug) ;;
  returned <- try_catch
                (authorize_try paymentInstrument cvc ;; ret None)
                (fun e => st <- authorize_catch e ;; ret (Some st)) ;;
  match returned with
  | Some st => ret st
  | None => ret (new_Status OK Undefined)
  end.

Definition authorize (order : Order) (paymentInstrument : OrderPaymentInstrument)
  : Status :=
  new_Status ERROR (Val (JString "Not supported")).
End Hooks.

End StripeHooks.

(** ** Vocabulary of the properties, and concrete scenarios *)

Module Scenarios.

Import StripePaymentsHelper.

(** An intent waiting for the client to run the 3D Secure step. *)
Definition intent_3ds : PaymentIntent :=
  {| id := "pi_1"; status := "requires_action";
     next_action := Some {| type := "use_stripe_sdk" |};
     client_secret := "pi_1_secret_abc"; review := None |}.

Definition intent_succeeded : PaymentIntent :=
  {| id := "pi_2"; status := "succeeded"; next_action := None;
     client_secret := "pi_2_secret_def"; review := None |}.

Definition intent_processing : PaymentIntent :=
  {| id := "pi_3"; status := "processing"; next_action := None;
     client_secret := "pi_3_secret_ghi"; review := None |}.

(** A malformed intent: an action is required but none is named. *)
Definition intent_no_action : PaymentIntent :=
  {| id := "pi_4"; status := "requires_action"; next_action := None;
     client_secret := "pi_4_secret_jkl"; review := None |}.

(** The two redirect targets of [handleAPM]. *)
Definition success_url (sfra : bool) : URL :=
  if sfra then URLUtils_url "Checkout-Begin" [("stage", "placeOrder")]
  else URLUtils_url "COSummary-Start" [].

Definition payment_step_url (sfra : bool) (msg : string) : URL :=
  if sfra then
    URLUtils_url "Checkout-Begin" [("stage", "payment"); ("apm_return_error", msg)]
  else URLUtils_url "COBilling-Start" [("apm_return_error", msg)].

(** The request's client secret is the one of the retrieved source. *)
Definition secret_matches (source : Source) (paramsMap : HttpParameterMap) : Prop :=
  source_client_secret source = param_client_secret paramsMap.

Definition status_authorized (source : Source) : Prop :=
  source_status source = "chargeable" \/ source_status source = "pending".

(** A Stripe service knowing one source. *)
Definition one_source (st : string) : nullable_string -> result Source :=
  fun sourceId =>
    if strict_eq sourceId (Str "src_1") then
      Ok {| source_client_secret := Str "src_client_secret_1";
            source_status := st |}
    else Throw (Error "No such source").

Definition return_params (secret : string) : HttpParameterMap :=
  {| param_source := Str "src_1"; param_client_secret := Str secret |}.

(** The error envelope of a failed remote call: the call result's
    message is the text of a JSON object whose [error] member is [err],
    and [err] is not null. *)
Definition has_envelope (cr : CallResult) (err : json) : Prop :=
  exists props,
    errorMessage cr = JsonText (JObject props)
    /\ assoc "error" props = Val err
    /\ err <> JNull.

(** [err.field] for an [err] that is not null. *)
Definition member (err : json) (field : string) : value :=
  match err with
  | JObject props => assoc field props
  | _ => Undefined
  end.

(** An error whose call result, if it has one, holds an envelope. *)
Definition unwrappable (e : JsError) : Prop :=
  forall cr, callResult e = Some cr -> exists err, has_envelope cr err.

(** Every error the checkout helper throws is unwrappable. *)
Definition helper_errors_unwrappable (h : CheckoutHelper) : Prop :=
  (forall basket e, getStripePaymentInstrument h basket = Throw e -> unwrappable e)
  /\ (forall paymentIntentId e, confirmPaymentIntent h paymentIntentId = Throw e -> unwrappable e)
  /\ (forall instrument e, createPaymentIntent h instrument = Throw e -> unwrappable e).

(** What the review step of [beforePaymentAuthorization] appends to the
    log and does to the basket, for a given intent. *)
Definition review_events (pi : PaymentIntent) : list (Event Action) :=
  if truthy (review pi)
  then [TxBegin; Do (WriteStripeIsPaymentIntentInReview true); TxCommit]
  else [].

Definition review_store (pi : PaymentIntent) (s : Session) : Session :=
  if truthy (review pi)
  then option_map (set_stripeIsPaymentIntentInReview true) s
  else s.

(** [responsePayload = generateCardsPaymentResponse(paymentIntent)] *)
Definition payload_of (pi : PaymentIntent) : result (option ResponsePayload) :=
  rbind (generateCardsPaymentResponse pi) (fun r => Ok (Some r)).

Definition card_instrument : PaymentInstrument :=
  {| paymentMethod := "CREDIT_CARD" |}.

Definition card_basket (intentId : option string) : Basket :=
  {| custom := {| stripePaymentIntentID := intentId;
                  stripeIsPaymentIntentInReview := None |};
     paymentInstruments := [card_instrument] |}.

(** A checkout helper whose remote calls go through. *)
Definition helper_up : CheckoutHelper :=
  {| getStripePaymentInstrument := fun basket => Ok (hd_error (paymentInstruments basket));
     confirmPaymentIntent := fun paymentIntentId =>
       Ok {| id := paymentIntentId; status := "succeeded"; next_action := None;
             client_secret := "pi_secret_confirmed"; review := None |};
     createPaymentIntent := fun _ => Ok intent_3ds |}.

(** The call result of a request that never reached the processor: its
    message is not JSON. *)
Definition timed_out : JsError :=
  mkError PlainError "Service call failed"
          (Some {| errorMessage := MalformedText |}).

(** The call result of a request the processor declined. *)
Definition card_declined : JsError :=
  mkError PlainError "Service call failed"
          (Some {| errorMessage :=
                     JsonText (JObject [("error",
                       JObject [("code", JString "card_declined");
                                ("message", JString "Your card was declined.")])]) |}).

Definition helper_with_create (r : result PaymentIntent) : CheckoutHelper :=
  {| getStripePaymentInstrument := getStripePaymentInstrument helper_up;
     confirmPaymentIntent := confirmPaymentIntent helper_up;
     createPaymentIntent := fun _ => r |}.

Definition start (session : Session) : World Session Action :=
  mkWorld session [].

(** *** The payment hooks *)

(** Events that open or close a transaction or write to the order. *)
Definition touches_order (ev : Event StripeHooks.Action) : bool :=
  match ev with
  | TxBegin | TxCommit | TxRollback => true
  | Do (StripeHooks.WriteStripePaymentIntentID _) => true
  | Do (StripeHooks.SetPaymentStatus _) => true
  | Do _ => false
  end.

Definition quiet (evs : list (Event StripeHooks.Action)) : Prop :=
  forallb (fun ev => negb (touches_order ev)) evs = true.

(** The order with both writes of a successful authorization applied. *)
Definition paid_with (paymentIntentId : string) (o : StripeHooks.Order)
  : StripeHooks.Order :=
  StripeHooks.set_paymentStatus StripeHooks.PAYMENT_STATUS_PAID
    (StripeHooks.set_stripePaymentIntentID paymentIntentId o).

(** Default fraction digits of a few ISO 4217 currencies. *)
Definition iso4217 (code : string) : option StripeHooks.Currency :=
  if String.eqb code "JPY" then Some {| StripeHooks.defaultFractionDigits := 0 |}
  else if String.eqb code "USD" then Some {| StripeHooks.defaultFractionDigits := 2 |}
  else if String.eqb code "EUR" then Some {| StripeHooks.defaultFractionDigits := 2 |}
  else None.

(** 19.99 as a Number: 0x1.3FD70A3D70A3Dp+4. *)
Definition n_19_99 : Number.number := S754_finite false 5626684784446013 (-48).

Definition visa : StripeHooks.OrderPaymentInstrument :=
  {| StripeHooks.amount :=
       {| StripeHooks.available := true;
          StripeHooks.value := n_19_99;
          StripeHooks.currencyCode := "USD" |};
     StripeHooks.creditCardNumber := "4242424242424242";
     StripeHooks.creditCardExpirationMonth := 12;
     StripeHooks.creditCardExpirationYear := 2030 |}.

Definition order_1 : StripeHooks.Order :=
  {| StripeHooks.orderNo := "00000101";
     StripeHooks.customerEmail := Some "jane@example.com";
     StripeHooks.billingAddress :=
       Some {| StripeHooks.city := Some "Boston";
               StripeHooks.countryCode := Some "US";
               StripeHooks.address1 := Some "1 Main St";
               StripeHooks.postalCode := Some "02110";
               StripeHooks.stateCode := Some "MA";
               StripeHooks.fullName := Some "Jane Doe";
               StripeHooks.phone := None |};
     StripeHooks.stripePaymentIntentID := None;
     StripeHooks.paymentStatus := StripeHooks.PAYMENT_STATUS_NOTPAID |}.

(** A platform and Stripe service with the given replies. *)
Definition dw_with (pm : result StripeHooks.PaymentMethod)
    (pi : result StripeHooks.PaymentIntent)
    (status_write : option JsError) : StripeHooks.Platform :=
  {| StripeHooks.Currency_getCurrency := iso4217;
     StripeHooks.Site_getCurrent_getID := "RefArch";
     StripeHooks.paymentMethods_create := fun _ => pm;
     StripeHooks.paymentIntents_create := fun _ => pi;
     StripeHooks.setPaymentStatus_throws := status_write |}.

Definition pm_1 : StripeHooks.PaymentMethod := {| StripeHooks.pm_id := "pm_1" |}.

Definition pi_succeeded : StripeHooks.PaymentIntent :=
  {| StripeHooks.pi_id := "pi_1"; StripeHooks.pi_status := "succeeded" |}.

Definition dw_up : StripeHooks.Platform := dw_with (Ok pm_1) (Ok pi_succeeded) None.

(** The PaymentIntent request the hook sends for [order_1] and [visa]. *)
Definition pi_request_1 : StripeHooks.PaymentIntentRequest :=
  {| StripeHooks.pi_amount := Number.of_Z 1999;
     StripeHooks.currency := "usd";
     StripeHooks.payment_method := "pm_1";
     StripeHooks.description := "MOTO transacion";
     StripeHooks.metadata_order_id := "00000101";
     StripeHooks.metadata_site_id := "RefArch";
     StripeHooks.confirm := true;
     StripeHooks.moto := true |}.

(** The PaymentMethod request the hook sends for them with code 123. *)
Definition pm_request_1 : StripeHooks.PaymentMethodRequest :=
  {| StripeHooks.pm_type := "card";
     StripeHooks.card :=
       {| StripeHooks.number_ := "4242424242424242";
          StripeHooks.exp_month := 12;
          StripeHooks.exp_year := 2030;
          StripeHooks.cvc := "123" |};
     StripeHooks.billing_details :=
       {| StripeHooks.address :=
            {| StripeHooks.address_city := Some "Boston";
               StripeHooks.address_country := "US";
               StripeHooks.address_line1 := Some "1 Main St";
               StripeHooks.address_postal_code := Some "02110";
               StripeHooks.address_state := "MA" |};
          StripeHooks.email := Some "jane@example.com";
          StripeHooks.name := Some "Jane Doe";
          StripeHooks.phone_number := None |} |}.

(** What a successful authorization of [order_1] appends to the log. *)
Definition events_1 : list (Event StripeHooks.Action) :=
  [Do StripeHooks.LoggerDebug;
   Do (StripeHooks.PaymentMethodsCreate pm_request_1);
   Do (StripeHooks.PaymentIntentsCreate pi_request_1);
   TxBegin;
   Do (StripeHooks.WriteStripePaymentIntentID "pi_1");
   Do (StripeHooks.SetPaymentStatus StripeHooks.PAYMENT_STATUS_PAID);
   TxCommit].

Definition placed (o : StripeHooks.Order) : World StripeHooks.Order StripeHooks.Action :=
  mkWorld o [].

(** The world in which the try block of [authorizeCreditCard] starts. *)
Definition entered (w : World StripeHooks.Order StripeHooks.Action)
  : World StripeHooks.Order StripeHooks.Action :=
  mkWorld (store w) (log w ++ [Do StripeHooks.LoggerDebug])%list.

Definition usd : StripeHooks.Currency := {| StripeHooks.defaultFractionDigits := 2 |}.
Definition jpy : StripeHooks.Currency := {| StripeHooks.defaultFractionDigits := 0 |}.

(** 500 as a Number: 0x1.F4p+8. *)
Definition n_500 : Number.number := S754_finite false 8796093022208000 (-44).

(** 35184372088832.02 as a Number, 0x1.0000000000003p+45, and the same
    amount in cents. *)
Definition n_35e12 : Number.number := S754_finite false 4503599627370499 (-7).
Definition cents_35e12 : Z := 3518437208883202.

(** The world after [Logger.error('Error: {0}', e.message)]. *)
Definition logged_error (e : JsError)
    (w : World StripeHooks.Order StripeHooks.Action)
  : World StripeHooks.Order StripeHooks.Action :=
  mkWorld (store w) (log w ++ [Do (StripeHooks.LoggerError (message e))])%list.

End Scenarios.

(** ** Properties of Number arithmetic *)

Module NumberProps.

Import Number.

Local Open Scope Z_scope.

(** Bit length of a positive number. *)
Lemma digits2_pos_bounds (p : positive) :
  2 ^ (Zpos (digits2_pos p) - 1) <= Zpos p < 2 ^ Zpos (digits2_pos p).
Proof.
  induction p as [p IH | p IH |]; simpl digits2_pos;
    [rewrite Pos2Z.inj_succ | rewrite Pos2Z.inj_succ | simpl; lia].
  all: set (d := Zpos (digits2_pos p)) in *.
  all: assert (Hd : 2 ^ d = 2 * 2 ^ (d - 1))
    by (rewrite <- Z.pow_succ_r by lia; f_equal; lia).
  all: replace (Z.succ d - 1) with d by lia.
  all: rewrite Z.pow_succ_r by lia.
  all: lia.
Qed.

(** The bit length is the only [d] with 2^(d-1) <= p < 2^d. *)
Lemma digits2_pos_unique (p : positive) (d : Z) :
  2 ^ (d - 1) <= Zpos p < 2 ^ d -> Zpos (digits2_pos p) = d.
Proof.
  intros [Hlo Hhi]. pose proof (digits2_pos_bounds p) as [Blo Bhi].
  assert (0 < d).
  { destruct (Z_lt_le_dec 0 d) as [? | Hd]; [assumption |].
    exfalso. assert (2 ^ d <= 2 ^ 0) by (destruct (Z_lt_le_dec d 0);
      [rewrite Z.pow_neg_r by assumption; simpl; lia
      | apply Z.pow_le_mono_r; lia]).
    simpl in *. lia. }
  destruct (Z.lt_trichotomy (Zpos (digits2_pos p)) d) as [Hlt | [Heq | Hgt]].
  - exfalso. assert (2 ^ Zpos (digits2_pos p) <= 2 ^ (d - 1))
      by (apply Z.pow_le_mono_r; lia). lia.
  - exact Heq.
  - exfalso. assert (2 ^ d <= 2 ^ (Zpos (digits2_pos p) - 1))
      by (apply Z.pow_le_mono_r; lia). lia.
Qed.

(** [iter_pos] is iteration. *)
Lemma iter_pos_nat {A} (f : A -> A) (p : positive) (x : A) :
  iter_pos f p x = Nat.iter (Pos.to_nat p) f x.
Proof.
  revert x. induction p as [p IH | p IH |]; intros x; simpl iter_pos.
  - rewrite !IH, Pos2Nat.inj_xI.
    replace (S (2 * Pos.to_nat p)) with (Pos.to_nat p + S (Pos.to_nat p))%nat by lia.
    rewrite Nat.iter_add, Nat.iter_succ_r. reflexivity.
  - rewrite !IH, Pos2Nat.inj_xO.
    replace (2 * Pos.to_nat p)%nat with (Pos.to_nat p + Pos.to_nat p)%nat by lia.
    rewrite Nat.iter_add. reflexivity.
  - reflexivity.
Qed.

Lemma shr_1_shifted (M B : Z) (mrs : shr_record) :
  0 < B -> shifted M B mrs -> shifted M (2 * B) (shr_1 mrs).
Proof.
  intros HB [Hm [rem [HM [Hrem Hloc]]]].
  destruct mrs as [m r s]. cbn [shr_m shr_r shr_s] in *.
  assert (Hor : forall b, locates b (r || s) (2 * B) (if b then B + rem else rem)).
  { intros b. destruct b, r, s; cbn [locates orb] in *; lia. }
  destruct m as [| p | p]; [| destruct p as [p | p |] |];
    try (exfalso; lia); unfold shifted; cbn [shr_1 shr_m shr_r shr_s].
  - split; [lia |]. exists rem. repeat split; try lia. exact (Hor false).
  - split; [lia |]. exists (B + rem). repeat split; try lia. exact (Hor true).
  - split; [lia |]. exists rem. repeat split; try lia. exact (Hor false).
  - split; [lia |]. exists (B + rem). repeat split; try lia. exact (Hor true).
Qed.

Lemma iter_shr_1_shifted (M : Z) (n : nat) (mrs : shr_record) :
  shifted M 1 mrs -> shifted M (2 ^ Z.of_nat n) (Nat.iter n shr_1 mrs).
Proof.
  intros H. induction n as [| n IH].
  - exact H.
  - rewrite Nat2Z.inj_succ, Z.pow_succ_r by lia. simpl Nat.iter.
    apply shr_1_shifted; [| exact IH]. apply Z.pow_pos_nonneg; lia.
Qed.

Lemma round_nearest_even_near (q B rem : Z) (r s : bool) :
  0 < B -> 0 <= rem < B -> locates r s B rem ->
  let m1 := round_nearest_even q (loc_of_shr_record (Build_shr_record q r s)) in
  q <= m1 <= q + 1 /\ 2 * Z.abs (m1 * B - (q * B + rem)) <= B.
Proof.
  intros HB Hrem Hloc.
  destruct r, s; cbn [locates loc_of_shr_record round_nearest_even] in *;
    try destruct (Z.even q); split; try lia.
Qed.

(** Shifting by [n] bits. *)
Lemma shr_shifted (M : positive) (E n : Z) :
  0 < n ->
  exists mrs,
    shr (Build_shr_record (Zpos M) false false) E n = (mrs, E + n)
    /\ shifted (Zpos M) (2 ^ n) mrs.
Proof.
  intros Hn. destruct n as [| pn | pn]; try lia.
  exists (iter_pos shr_1 pn (Build_shr_record (Zpos M) false false)).
  split; [reflexivity |].
  rewrite iter_pos_nat.
  replace (Zpos pn) with (Z.of_nat (Pos.to_nat pn)) by apply positive_nat_Z.
  apply iter_shr_1_shifted.
  split; [cbn; lia |]. exists 0. cbn. lia.
Qed.

(** The second shift of [binary_round_aux]: a rounded mantissa of 53
    bits stays, one that reached 2^53 is halved. *)
Lemma renormalize (m1 e' : Z) :
  2 ^ 52 <= m1 <= 2 ^ 53 ->
  emin prec emax <= e' ->
  exists m e,
    shr_fexp prec emax m1 e' loc_Exact = (Build_shr_record (Zpos m) false false, e)
    /\ e' <= e <= e' + 1
    /\ 2 ^ 52 <= Zpos m < 2 ^ 53
    /\ Zpos m * 2 ^ (e - e') = m1.
Proof.
  intros Hm He.
  destruct (Z.eq_dec m1 (2 ^ 53)) as [-> | Hnot].
  - exists (Pos.iter xO xH 52), (e' + 1).
    unfold shr_fexp.
    change (Zdigits2 (2 ^ 53)) with 54.
    replace (fexp prec emax (54 + e') - e') with 1
      by (unfold fexp, prec in *; lia).
    split; [reflexivity |].
    replace (e' + 1 - e') with 1 by lia.
    split; [lia |]. split; [cbn; lia | reflexivity].
  - destruct m1 as [| p | p]; try (cbn in Hm; lia).
    exists p, e'.
    unfold shr_fexp. cbn [Zdigits2 shr_record_of_loc].
    rewrite (digits2_pos_unique p 53) by (change (53 - 1) with 52; lia).
    replace (fexp prec emax (53 + e') - e') with 0
      by (unfold fexp, prec in *; lia).
    split; [reflexivity |].
    replace (e' - e') with 0 by lia.
    split; [lia |]. split; [lia |]. cbn [Z.pow]. lia.
Qed.

(** Rounding a product [M] * 2^[E] of more than 53 bits, away from
    underflow and overflow: the result is a normal number within half a
    unit in the last place of the product. *)
Lemma binary_round_aux_normal (sx : bool) (M : positive) (E : Z) :
  let n := Zpos (digits2_pos M) - prec in
  0 < n ->
  emin prec emax <= E + n ->
  E + n + 1 <= emax - prec ->
  exists m e,
    binary_round_aux prec emax sx (Zpos M) E loc_Exact = S754_finite sx m e
    /\ E + n <= e <= E + n + 1
    /\ 2 ^ 52 <= Zpos m < 2 ^ 53
    /\ 2 * Z.abs (Zpos m * 2 ^ (e - E) - Zpos M) <= 2 ^ n
    /\ (forall q, Zpos M = q * 2 ^ n -> Zpos m = q /\ e = E + n).
Proof.
  intros n Hn Hlo Hhi.
  pose proof (digits2_pos_bounds M) as [Mlo Mhi].
  set (d := Zpos (digits2_pos M)) in *.
  assert (HB : 0 < 2 ^ n) by (apply Z.pow_pos_nonneg; lia).
  assert (Hd1 : 2 ^ (d - 1) = 2 ^ 52 * 2 ^ n).
  { rewrite <- Z.pow_add_r by lia. f_equal. unfold n, prec. lia. }
  assert (Hd : 2 ^ d = 2 ^ 53 * 2 ^ n).
  { rewrite <- Z.pow_add_r by lia. f_equal. unfold n, prec. lia. }
  unfold binary_round_aux. unfold shr_fexp at 1.
  cbn [Zdigits2 shr_record_of_loc]. fold d.
  assert (Hf : fexp prec emax (d + E) - E = n).
  { unfold fexp. unfold n in *. lia. }
  rewrite Hf.
  destruct (shr_shifted M E n Hn) as [mrs [Hshr [Hq0 [rem [HM [Hrem Hloc]]]]]].
  rewrite Hshr.
  destruct mrs as [q r s]. cbn [shr_m shr_r shr_s] in *.
  pose proof (round_nearest_even_near q (2 ^ n) rem r s HB Hrem Hloc) as [Hm1 Hnear].
  set (m1 := round_nearest_even q (loc_of_shr_record (Build_shr_record q r s))) in *.
  rewrite <- HM in Hnear.
  assert (Hq : 2 ^ 52 <= q < 2 ^ 53).
  { split.
    - destruct (Z_lt_le_dec q (2 ^ 52)) as [Hlt | ?]; [exfalso | assumption].
      assert (q * 2 ^ n <= (2 ^ 52 - 1) * 2 ^ n)
        by (apply Z.mul_le_mono_nonneg_r; lia).
      lia.
    - destruct (Z_lt_le_dec q (2 ^ 53)) as [? | Hge]; [assumption | exfalso].
      assert (2 ^ 53 * 2 ^ n <= q * 2 ^ n)
        by (apply Z.mul_le_mono_nonneg_r; lia).
      lia. }
  destruct (renormalize m1 (E + n)) as [m [e [Hre [He [Hm Hval]]]]];
    [lia | exact Hlo |].
  rewrite Hre. cbn [shr_m].
  exists m, e.
  replace (e <=? emax - prec) with true by (symmetry; apply Z.leb_le; lia).
  split; [reflexivity |]. split; [exact He |]. split; [exact Hm |].
  split.
  - replace (e - E) with ((e - (E + n)) + n) by lia.
    rewrite Z.pow_add_r by lia.
    rewrite Z.mul_assoc, Hval. exact Hnear.
  - intros q' Hq'.
    assert (Hrem0 : rem = 0 /\ q = q').
    { assert (Hdiff : rem = (q' - q) * 2 ^ n) by lia.
      destruct (Z.lt_trichotomy q' q) as [Hlt | [Heq | Hgt]].
      - assert ((q' - q) * 2 ^ n <= (-1) * 2 ^ n)
          by (apply Z.mul_le_mono_nonneg_r; lia). lia.
      - subst q'. lia.
      - assert (1 * 2 ^ n <= (q' - q) * 2 ^ n)
          by (apply Z.mul_le_mono_nonneg_r; lia). lia. }
    destruct Hrem0 as [-> <-].
    assert (Hm1q : m1 = q).
    { unfold m1. destruct r, s; cbn [locates] in Hloc; try lia. reflexivity. }
    rewrite Hm1q in Hval.
    destruct (Z.eq_dec e (E + n)) as [Heq | Hne].
    + rewrite Heq in Hval. replace (E + n - (E + n)) with 0 in Hval by lia.
      cbn [Z.pow] in Hval. lia.
    + exfalso. replace (e - (E + n)) with 1 in Hval by lia.
      change (2 ^ 1) with 2 in Hval. lia.
Qed.

(** The nearest integer, ties up, of [m] / 2^(-e). *)
Lemma round_half_up_near (m k e : Z) :
  e < 0 ->
  2 * Z.abs (m - k * 2 ^ (- e)) < 2 ^ (- e) ->
  round_half_up m (- e) = k.
Proof.
  intros He Hnear. unfold round_half_up.
  assert (Hu : 0 < 2 ^ (- e)) by (apply Z.pow_pos_nonneg; lia).
  replace (2 ^ (- e + 1)) with (2 * 2 ^ (- e))
    by (rewrite <- Z.pow_succ_r by lia; f_equal; lia).
  symmetry.
  apply (Z.div_unique_pos _ _ _ (2 * m + 2 ^ (- e) - k * (2 * 2 ^ (- e)))); lia.
Qed.

(** [Pos.iter xO p n] is [p] shifted left by [n] bits. *)
Lemma iter_xO_shift (p n : positive) :
  Zpos (Pos.iter xO p n) = Zpos p * 2 ^ Zpos n.
Proof.
  rewrite <- (positive_nat_Z n), Pos2Nat.inj_iter.
  induction (Pos.to_nat n) as [| j IH].
  - cbn. lia.
  - rewrite Nat2Z.inj_succ, Z.pow_succ_r by lia.
    cbn [nat_rect]. rewrite Pos2Z.inj_xO, IH. ring.
Qed.

(** A mantissa of 53 bits in range is kept as it is. *)
Lemma binary_round_aux_exact (sx : bool) (m : positive) (e : Z) :
  Zpos (digits2_pos m) = 53 ->
  emin prec emax <= e <= emax - prec ->
  binary_round_aux prec emax sx (Zpos m) e loc_Exact = S754_finite sx m e.
Proof.
  intros Hd He.
  assert (Hshift : fexp prec emax (53 + e) - e = 0)
    by (unfold fexp, prec in *; lia).
  unfold binary_round_aux, shr_fexp.
  cbn [Zdigits2 shr_record_of_loc]. rewrite Hd, Hshift.
  cbn [shr shr_m loc_of_shr_record round_nearest_even Zdigits2].
  rewrite Hd, Hshift. cbn [shr shr_m].
  replace (e <=? emax - prec) with true by (symmetry; apply Z.leb_le; lia).
  reflexivity.
Qed.

Lemma shl_align_0 (p : positive) (s : Z) :
  s <= 0 ->
  exists mz, shl_align p 0 s = (mz, s) /\ Zpos mz = Zpos p * 2 ^ (- s).
Proof.
  intros Hs. unfold shl_align. rewrite Z.sub_0_r.
  destruct s as [| q | q]; try lia.
  - exists p. split; [reflexivity |]. cbn. lia.
  - exists (Pos.iter xO p q). split; [reflexivity |].
    rewrite iter_xO_shift. reflexivity.
Qed.

Lemma pow2_exponent_lt (t b : Z) : 0 <= b -> 2 ^ t < 2 ^ b -> t < b.
Proof. intros Hb H. apply (Z.pow_lt_mono_r_iff 2); lia. Qed.

(** Whole numbers below 2^53 are Numbers, exactly. *)
Lemma binary_round_integer (s : bool) (p : positive) :
  Zpos p < 2 ^ 53 ->
  exists m e,
    binary_round prec emax s p 0 = S754_finite s m e
    /\ e <= 0 /\ Zpos m = Zpos p * 2 ^ (- e).
Proof.
  intros Hk.
  pose proof (digits2_pos_bounds p) as [Hlo Hhi].
  set (d := Zpos (digits2_pos p)) in *.
  assert (Hd : 0 < d <= 53).
  { split; [unfold d; lia |].
    assert (d - 1 < 53); [| lia]. apply pow2_exponent_lt; lia. }
  unfold binary_round. fold d.
  replace (fexp prec emax (d + 0)) with (d - 53)
    by (unfold fexp, emin, emax, prec; lia).
  destruct (shl_align_0 p (d - 53)) as [mz [Hal Hmz]]; [lia |].
  rewrite Hal. exists mz, (d - 53).
  split; [| split; [lia | exact Hmz]].
  apply binary_round_aux_exact; [| unfold emin, emax, prec; lia].
  apply digits2_pos_unique. rewrite Hmz.
  replace (2 ^ (53 - 1)) with (2 ^ (d - 1) * 2 ^ (- (d - 53)))
    by (rewrite <- Z.pow_add_r by lia; f_equal; lia).
  replace (2 ^ 53) with (2 ^ d * 2 ^ (- (d - 53)))
    by (rewrite <- Z.pow_add_r by lia; f_equal; lia).
  assert (0 < 2 ^ (- (d - 53))) by (apply Z.pow_pos_nonneg; lia).
  split.
  - apply Z.mul_le_mono_nonneg_r; lia.
  - apply Z.mul_lt_mono_pos_r; lia.
Qed.

Lemma binary_normalize_integer (k : Z) (s : bool) :
  Z.abs k < 2 ^ 53 -> is_integer (binary_normalize prec emax k 0 s) k.
Proof.
  intros Hk. destruct k as [| p | p]; cbn [binary_normalize].
  - reflexivity.
  - destruct (binary_round_integer false p) as [m [e [-> [He Hm]]]]; [lia |].
    cbn [is_integer cond_Zopp].
    destruct (Z.leb_spec 0 e).
    + replace e with 0 in * by lia. cbn [Z.pow Z.opp] in *. lia.
    + exact Hm.
  - destruct (binary_round_integer true p) as [m [e [-> [He Hm]]]]; [lia |].
    cbn [is_integer cond_Zopp].
    destruct (Z.leb_spec 0 e).
    + replace e with 0 in * by lia. cbn [Z.pow Z.opp] in *. lia.
    + rewrite Hm. change (Zneg p) with (- Zpos p). ring.
Qed.

Lemma cond_Zopp_abs (s : bool) (x y : Z) :
  Z.abs (cond_Zopp s x - cond_Zopp s y) = Z.abs (x - y).
Proof. destruct s; cbn [cond_Zopp]; lia. Qed.

(** When the exact product of two Numbers lies closer to an integer [k]
    than one half less half a unit in the last place, the rounded
    product rounds to [k]. *)
Lemma round_product (s : bool) (ma mc : positive) (ea ec k : Z) :
  let n := Zpos (digits2_pos (ma * mc)) - prec in
  0 < n ->
  emin prec emax <= ea + ec + n ->
  ea + ec + n < 0 ->
  2 * Z.abs (cond_Zopp s (Zpos (ma * mc)) - k * 2 ^ (- (ea + ec))) + 2 ^ n
  < 2 ^ (- (ea + ec)) ->
  is_integer (Math_round (mul (S754_finite s ma ea) (S754_finite false mc ec))) k.
Proof.
  intros n Hn Hlo Hneg Hclose.
  unfold mul, SFmul. rewrite xorb_false_r.
  destruct (binary_round_aux_normal s (ma * mc) (ea + ec) Hn Hlo)
    as [m [e [Hr [He [Hm [Hnear _]]]]]].
  { fold n. unfold emax, prec. lia. }
  fold n in He, Hnear. rewrite Hr. clear Hr.
  set (G := 2 ^ (e - (ea + ec))) in *.
  set (u := 2 ^ (- e)).
  assert (HG : 0 < G) by (apply Z.pow_pos_nonneg; lia).
  assert (Hu : 0 < u) by (apply Z.pow_pos_nonneg; lia).
  assert (HD : 2 ^ (- (ea + ec)) = u * G).
  { unfold u, G. rewrite <- Z.pow_add_r by lia. f_equal. lia. }
  rewrite HD in Hclose.
  assert (Hsm : 2 * Z.abs (cond_Zopp s (Zpos m) - k * u) < u).
  { apply (Z.mul_lt_mono_pos_r G); [exact HG |].
    replace (2 * Z.abs (cond_Zopp s (Zpos m) - k * u) * G)
      with (2 * Z.abs (cond_Zopp s (Zpos m * G) - k * (u * G))).
    - rewrite <- (cond_Zopp_abs s) in Hnear. lia.
    - rewrite <- (Z.abs_eq G) at 3 by lia.
      rewrite <- Z.mul_assoc, <- Z.abs_mul. f_equal. f_equal.
      destruct s; cbn [cond_Zopp]; ring. }
  unfold Math_round. destruct (Z.leb_spec 0 e) as [He0 | He0].
  - (* the product is a whole number of 53 bits *)
    assert (He00 : e = 0) by lia.
    unfold u in Hsm. rewrite He00 in Hsm |- *.
    cbn [is_integer]. change (0 <=? 0) with true. cbv iota.
    change (2 ^ 0) with 1. change (2 ^ (- 0)) with 1 in Hsm.
    lia.
  - rewrite (round_half_up_near _ k e He0 Hsm).
    apply binary_normalize_integer.
    fold u in Hsm.
    assert (Hu2 : 2 <= u).
    { unfold u. change 2 with (2 ^ 1) at 1. apply Z.pow_le_mono_r; lia. }
    destruct (Z_lt_le_dec (Z.abs k) (2 ^ 53)) as [? | Hbig]; [assumption | exfalso].
    assert (Habs : Z.abs (k * u) = Z.abs k * u)
      by (rewrite Z.abs_mul, (Z.abs_eq u); lia).
    assert (2 ^ 53 * u <= Z.abs k * u) by (apply Z.mul_le_mono_nonneg_r; lia).
    assert (Z.abs (cond_Zopp s (Zpos m)) < 2 ^ 53)
      by (destruct s; cbn [cond_Zopp]; lia).
    change (2 ^ 53) with 9007199254740992 in *. lia.
Qed.

Lemma Math_pow10_0 : Math_pow10 0 = S754_finite false 4503599627370496 (-52).
Proof. reflexivity. Qed.

Lemma Math_pow10_2 : Math_pow10 2 = S754_finite false 7036874417766400 (-46).
Proof. reflexivity. Qed.

(** Bit length from bounds by powers of two. *)
Lemma digits2_pos_between (p : positive) (lo hi : Z) :
  0 <= lo -> 2 ^ lo <= Zpos p < 2 ^ hi -> lo < Zpos (digits2_pos p) <= hi.
Proof.
  intros Hlo [H1 H2]. pose proof (digits2_pos_bounds p) as [B1 B2].
  split.
  - apply (Z.pow_lt_mono_r_iff 2); lia.
  - assert (Zpos (digits2_pos p) - 1 < hi); [| lia].
    apply (Z.pow_lt_mono_r_iff 2); try lia.
    destruct (Z_lt_le_dec hi 0) as [Hneg | ?]; [| assumption].
    rewrite (Z.pow_neg_r 2 hi Hneg) in H2. lia.
Qed.

(** Two decimals: an amount within half a unit in the last place of
    [k] / 100 is converted to [k], as long as [k] stays below
    100 * 2^45. *)
Lemma cents_round_trip (s : bool) (ma : positive) (ea k : Z) :
  nearest_decimal 2 (S754_finite s ma ea) k ->
  Z.abs k < 100 * 2 ^ 45 ->
  is_integer (Math_round (mul (S754_finite s ma ea) (Math_pow10 2))) k.
Proof.
  intros [Hma [Hea Hnear]] Hk. rewrite Math_pow10_2.
  change (10 ^ Z.of_nat 2) with 100 in Hnear.
  set (T := 2 ^ (- ea)) in *.
  assert (HT : 0 < T) by (apply Z.pow_pos_nonneg; lia).
  assert (Habs : Z.abs (k * T) = Z.abs k * T)
    by (rewrite Z.abs_mul, (Z.abs_eq T); lia).
  assert (Hsm : Z.abs (cond_Zopp s (Zpos ma)) = Zpos ma)
    by (destruct s; cbn [cond_Zopp]; lia).
  assert (Ht8 : 8 <= - ea).
  { destruct (Z_lt_le_dec (- ea) 8) as [Hlt | ?]; [exfalso | assumption].
    assert (T <= 2 ^ 7) by (apply Z.pow_le_mono_r; lia).
    assert (Z.abs k * T <= (100 * 2 ^ 45 - 1) * 2 ^ 7)
      by (apply Z.mul_le_mono_nonneg; lia).
    change (2 ^ 7) with 128 in *. change (2 ^ 45) with 35184372088832 in *.
    change (2 ^ 52) with 4503599627370496 in *. lia. }
  assert (HT256 : 256 <= T)
    by (change 256 with (2 ^ 8); apply Z.pow_le_mono_r; lia).
  assert (HM : Zpos (ma * 7036874417766400) = 100 * Zpos ma * 2 ^ 46).
  { rewrite Pos2Z.inj_mul. change (2 ^ 46) with 70368744177664. lia. }
  assert (Hd : 104 < Zpos (digits2_pos (ma * 7036874417766400)) <= 106).
  { apply digits2_pos_between; [lia |]. rewrite HM.
    change (2 ^ 104) with (2 ^ 52 * 2 ^ 52).
    change (2 ^ 106) with (2 ^ 53 * 2 ^ 53).
    change (2 ^ 46) with 70368744177664.
    change (2 ^ 52) with 4503599627370496 in *.
    change (2 ^ 53) with 9007199254740992 in *. lia. }
  assert (HD : 2 ^ (- (ea + -46)) = 2 ^ 46 * T).
  { unfold T. rewrite <- Z.pow_add_r by lia. f_equal. lia. }
  apply round_product.
  - unfold prec. lia.
  - unfold emin, emax, prec. lia.
  - unfold prec. lia.
  - rewrite HD, HM.
    assert (Hn : 2 ^ (Zpos (digits2_pos (ma * 7036874417766400)) - prec) <= 2 ^ 53)
      by (apply Z.pow_le_mono_r; unfold prec; lia).
    replace (cond_Zopp s (100 * Zpos ma * 2 ^ 46) - k * (2 ^ 46 * T))
      with ((100 * cond_Zopp s (Zpos ma) - k * T) * 2 ^ 46)
      by (destruct s; cbn [cond_Zopp]; ring).
    rewrite Z.abs_mul. change (2 ^ 46) with 70368744177664 in *.
    change (2 ^ 53) with 9007199254740992 in *.
    change (Z.abs 70368744177664) with 70368744177664. lia.
Qed.

(** Multiplying by [Math.pow(10, 0)] changes nothing. *)
Lemma mul_one (s : bool) (ma : positive) (ea : Z) :
  2 ^ 52 <= Zpos ma < 2 ^ 53 ->
  -1074 <= ea <= 0 ->
  mul (S754_finite s ma ea) (Math_pow10 0) = S754_finite s ma ea.
Proof.
  intros Hma Hea. rewrite Math_pow10_0. unfold mul, SFmul. rewrite xorb_false_r.
  assert (HM : Zpos (ma * 4503599627370496) = Zpos ma * 2 ^ 52)
    by (rewrite Pos2Z.inj_mul; reflexivity).
  assert (Hd : Zpos (digits2_pos (ma * 4503599627370496)) = 105).
  { apply digits2_pos_unique. rewrite HM.
    change (2 ^ (105 - 1)) with (2 ^ 52 * 2 ^ 52).
    change (2 ^ 105) with (2 ^ 53 * 2 ^ 52).
    change (2 ^ 52) with 4503599627370496 in *.
    change (2 ^ 53) with 9007199254740992 in *. lia. }
  destruct (binary_round_aux_normal s (ma * 4503599627370496) (ea + -52))
    as [m [e [Hr [_ [_ [_ Hexact]]]]]];
    try (rewrite Hd; unfold emin, emax, prec; lia).
  rewrite Hd in Hexact. change (105 - prec) with 52 in Hexact.
  destruct (Hexact (Zpos ma) HM) as [Hm He].
  rewrite Hr. f_equal; [congruence | lia].
Qed.

(** No decimals: a whole amount [k] is converted to [k]. *)
Lemma units_round_trip (s : bool) (ma : positive) (ea k : Z) :
  nearest_decimal 0 (S754_finite s ma ea) k ->
  is_integer (Math_round (mul (S754_finite s ma ea) (Math_pow10 0))) k.
Proof.
  intros [Hma [Hea Hnear]]. rewrite (mul_one s ma ea Hma Hea).
  change (10 ^ Z.of_nat 0) with 1 in Hnear.
  set (T := 2 ^ (- ea)) in *.
  assert (HT : 0 < T) by (apply Z.pow_pos_nonneg; lia).
  assert (Hval : cond_Zopp s (Zpos ma) = k * T) by lia.
  unfold Math_round. destruct (Z.leb_spec 0 ea) as [He0 | He0].
  - assert (He00 : ea = 0) by lia.
    unfold T in Hval. rewrite He00 in Hval |- *.
    cbn [is_integer]. change (0 <=? 0) with true. cbv iota.
    change (2 ^ (- 0)) with 1 in Hval. change (2 ^ 0) with 1. lia.
  - assert (HT2 : 2 <= T).
    { unfold T. change 2 with (2 ^ 1) at 1. apply Z.pow_le_mono_r; lia. }
    rewrite (round_half_up_near _ k ea He0) by (fold T; lia).
    apply binary_normalize_integer.
    assert (Habs : Z.abs (k * T) = Z.abs k * T)
      by (rewrite Z.abs_mul, (Z.abs_eq T); lia).
    assert (Hsm : Z.abs (cond_Zopp s (Zpos ma)) = Zpos ma)
      by (destruct s; cbn [cond_Zopp]; lia).
    assert (1 * Z.abs k <= Z.abs k * T) by (rewrite (Z.mul_comm (Z.abs k)); apply Z.mul_le_mono_nonneg_r; lia).
    lia.
Qed.

End NumberProps.

(** ** Proof steps shared by the handlers *)

(** Unfolds the script monad down to case analyses. *)
Ltac unfold_script :=
  unfold bind, ret, throw, lift, emit, get, modify, try_catch,
    Transaction_wrap, rbind in *; simpl in *.

Ltac case_step :=
  match goal with
  | |- context [match ?x with _ => _ end] =>
      lazymatch x with
      | context [match _ with _ => _ end] => fail
      | _ => destruct x eqn:?
      end
  | |- context [if ?x then _ else _] =>
      lazymatch x with
      | context [if _ then _ else _] => fail
      | context [match _ with _ => _ end] => fail
      | _ => destruct x eqn:?
      end
  end.

(** ** Properties of stripePaymentsHelper.js *)

Module StripePaymentsHelperProps.

Import StripePaymentsHelper Scenarios.

Lemma eqb_neq_false (a b : string) : a <> b -> String.eqb a b = false.
Proof. intro H. apply String.eqb_neq. exact H. Qed.

(** C1. The response of [generateCardsPaymentResponse] follows the
    intent's status: the client is told to handle the action when the
    status is requires_action and the next action is of type
    use_stripe_sdk; success is reported when the status is succeeded;
    every status other than these two gets the error
    'Invalid PaymentIntent status'. *)
Theorem generateCardsPaymentResponse_by_status (intent : PaymentIntent) :
  (forall na,
      status intent = "requires_action" ->
      next_action intent = Some na ->
      type na = "use_stripe_sdk" ->
      generateCardsPaymentResponse intent
      = Ok (RequiresAction (client_secret intent)))
  /\ (status intent = "succeeded" ->
      generateCardsPaymentResponse intent = Ok Success)
  /\ (status intent <> "requires_action" ->
      status intent <> "succeeded" ->
      generateCardsPaymentResponse intent
      = Ok (ErrorText "Invalid PaymentIntent status")).
Proof.
  unfold generateCardsPaymentResponse, next_action_type.
  repeat split.
  - intros na Hs Hn Ht. rewrite Hs, Hn, Ht. reflexivity.
  - intros Hs. rewrite Hs. reflexivity.
  - intros H1 H2.
    rewrite (eqb_neq_false _ _ H1). simpl.
    rewrite (eqb_neq_false _ _ H2). reflexivity.
Qed.

Lemma generateCardsPaymentResponse_by_status_witness :
  generateCardsPaymentResponse intent_3ds
  = Ok (RequiresAction "pi_1_secret_abc")
  /\ generateCardsPaymentResponse intent_succeeded = Ok Success
  /\ generateCardsPaymentResponse intent_processing
     = Ok (ErrorText "Invalid PaymentIntent status").
Proof.
  split; [| split].
  - apply (proj1 (generateCardsPaymentResponse_by_status intent_3ds)
                 {| type := "use_stripe_sdk" |}); reflexivity.
  - apply (proj1 (proj2 (generateCardsPaymentResponse_by_status intent_succeeded)));
      reflexivity.
  - apply (proj2 (proj2 (generateCardsPaymentResponse_by_status intent_processing)));
      discriminate.
Defined.

(** C10. [generateCardsPaymentResponse] reads [intent.next_action.type]
    whenever the status is requires_action: it returns a payload exactly
    when the status is not requires_action or a next action is present,
    and for status requires_action without a next action it throws a
    TypeError instead of returning the 'Invalid PaymentIntent status'
    payload. *)
Theorem generateCardsPaymentResponse_partial (intent : PaymentIntent) :
  ((exists payload, generateCardsPaymentResponse intent = Ok payload)
   <-> (status intent = "requires_action" -> next_action intent <> None))
  /\ (status intent = "requires_action" ->
      next_action intent = None ->
      generateCardsPaymentResponse intent = Throw (cannot_read "type")
      /\ name (cannot_read "type") = TypeError
      /\ generateCardsPaymentResponse intent
         <> Ok (ErrorText "Invalid PaymentIntent status")).
Proof.
  unfold generateCardsPaymentResponse, next_action_type.
  split; [split |].
  - intros [payload H] Hs Hn. rewrite Hs, Hn in H. discriminate H.
  - intros H.
    destruct (String.eqb (status intent) "requires_action") eqn:E.
    + apply String.eqb_eq in E.
      destruct (next_action intent) as [na |] eqn:Hn.
      * simpl. destruct (String.eqb (type na) "use_stripe_sdk");
          [| destruct (String.eqb (status intent) "succeeded")]; eauto.
      * exfalso. apply (H E). reflexivity.
    + simpl. destruct (String.eqb (status intent) "succeeded"); eauto.
  - intros Hs Hn. rewrite Hs, Hn. simpl.
    repeat split. discriminate.
Qed.

Lemma generateCardsPaymentResponse_partial_witness :
  generateCardsPaymentResponse intent_no_action = Throw (cannot_read "type")
  /\ name (cannot_read "type") = TypeError
  /\ generateCardsPaymentResponse intent_no_action
     <> Ok (ErrorText "Invalid PaymentIntent status").
Proof.
  apply (proj2 (generateCardsPaymentResponse_partial intent_no_action));
    reflexivity.
Defined.

(** *** handleAPM *)

Lemma indexOf_authorized (st : string) :
  (indexOf ["chargeable"; "pending"] st <? 0)%Z = false
  <-> (st = "chargeable" \/ st = "pending").
Proof.
  unfold indexOf, indexOf_from.
  destruct (String.eqb "chargeable" st) eqn:E1.
  - apply String.eqb_eq in E1. split; auto.
  - destruct (String.eqb "pending" st) eqn:E2.
    + apply String.eqb_eq in E2. split; auto.
    + apply String.eqb_neq in E1, E2. split.
      * discriminate.
      * intros [H | H]; congruence.
Qed.

Lemma strict_eq_true (a b : nullable_string) : strict_eq a b = true <-> a = b.
Proof.
  destruct a as [| | x]; destruct b as [| | y]; simpl;
    try (split; [reflexivity | reflexivity]);
    try (split; discriminate).
  rewrite String.eqb_eq. split; [intros -> | intros H; injection H]; auto.
Qed.

Lemma strict_neq_false (source : Source) (paramsMap : HttpParameterMap) :
  strict_neq (source_client_secret source) (param_client_secret paramsMap) = false
  <-> secret_matches source paramsMap.
Proof.
  unfold strict_neq, secret_matches.
  rewrite negb_false_iff. apply strict_eq_true.
Qed.

Lemma payment_step_is_not_success (sfra : bool) (msg : string) :
  payment_step_url sfra msg <> success_url sfra.
Proof. destruct sfra; discriminate. Qed.

(** C5. [handleAPM] returns the success URL (place-order step or order
    summary) only when the retrieved source's client secret is the one
    supplied in the request and the source status is chargeable or
    pending.  On a client-secret mismatch, and on any other source
    status, it returns the payment-step URL with the error message in
    the apm_return_error parameter, which is never the success URL; so
    it does when the source cannot be retrieved. *)
Theorem handleAPM_redirect
    (sources_retrieve : nullable_string -> result Source)
    (sfra : bool) (paramsMap : HttpParameterMap) :
  (handleAPM sources_retrieve sfra paramsMap = success_url sfra ->
   exists source,
     sources_retrieve (param_source paramsMap) = Ok source
     /\ secret_matches source paramsMap
     /\ status_authorized source)
  /\ (forall source,
        sources_retrieve (param_source paramsMap) = Ok source ->
        ~ secret_matches source paramsMap ->
        handleAPM sources_retrieve sfra paramsMap
        = payment_step_url sfra "Source client secret mismatch")
  /\ (forall source,
        sources_retrieve (param_source paramsMap) = Ok source ->
        secret_matches source paramsMap ->
        ~ status_authorized source ->
        handleAPM sources_retrieve sfra paramsMap
        = payment_step_url sfra "Source not authorized.")
  /\ (forall msg, payment_step_url sfra msg <> success_url sfra)
  /\ (forall e,
        sources_retrieve (param_source paramsMap) = Throw e ->
        handleAPM sources_retrieve sfra paramsMap
        = payment_step_url sfra (message e)).
Proof.
  unfold handleAPM, apm_try, apm_catch.
  repeat split.
  - destruct (sources_retrieve (param_source paramsMap)) as [source | e]; simpl.
    + destruct (strict_neq _ _) eqn:Hs.
      * intros H. exfalso.
        exact (payment_step_is_not_success sfra _ H).
      * destruct (indexOf _ _ <? 0)%Z eqn:Hi.
        -- intros H. exfalso.
           exact (payment_step_is_not_success sfra _ H).
        -- intros _. exists source. repeat split.
           ++ apply strict_neq_false. exact Hs.
           ++ apply indexOf_authorized. exact Hi.
    + intros H. exfalso. exact (payment_step_is_not_success sfra _ H).
  - intros source Hr Hm. rewrite Hr. simpl.
    destruct (strict_neq _ _) eqn:Hs.
    + reflexivity.
    + exfalso. apply Hm. apply strict_neq_false. exact Hs.
  - intros source Hr Hm Hst. rewrite Hr. simpl.
    apply strict_neq_false in Hm. rewrite Hm.
    destruct (indexOf _ _ <? 0)%Z eqn:Hi.
    + reflexivity.
    + exfalso. apply Hst. apply indexOf_authorized. exact Hi.
  - apply payment_step_is_not_success.
  - intros e Hr. rewrite Hr. reflexivity.
Qed.

Lemma handleAPM_redirect_witness :
  (exists source,
      one_source "pending" (Str "src_1") = Ok source
      /\ secret_matches source (return_params "src_client_secret_1")
      /\ status_authorized source)
  /\ handleAPM (one_source "chargeable") true (return_params "forged")
     = payment_step_url true "Source client secret mismatch"
  /\ handleAPM (one_source "failed") false (return_params "src_client_secret_1")
     = payment_step_url false "Source not authorized.".
Proof.
  split; [| split].
  - apply (proj1 (handleAPM_redirect (one_source "pending") true
                    (return_params "src_client_secret_1"))).
    reflexivity.
  - apply (proj1 (proj2 (handleAPM_redirect (one_source "chargeable") true
                           (return_params "forged")))
             {| source_client_secret := Str "src_client_secret_1";
                source_status := "chargeable" |}).
    + reflexivity.
    + discriminate.
  - apply (proj1 (proj2 (proj2 (handleAPM_redirect (one_source "failed") false
                                  (return_params "src_client_secret_1"))))
             {| source_client_secret := Str "src_client_secret_1";
                source_status := "failed" |}).
    + reflexivity.
    + reflexivity.
    + intros [H | H]; discriminate H.
Defined.

End StripePaymentsHelperProps.

(** ** Properties of beforePaymentAuthorization *)

Module BeforePaymentAuthorizationProps.

Import StripePaymentsHelper Scenarios.

Ltac norm_log := repeat rewrite <- app_assoc; simpl; try rewrite app_nil_r.

(** The card branch when the basket carries an intent identifier. *)
Lemma cards_payment_confirm h basket instrument (w : World Session Action) :
  truthy (stripePaymentIntentID (custom basket)) = true ->
  cards_payment h basket instrument w =
  let paymentIntentId := string_of (stripePaymentIntentID (custom basket)) in
  match confirmPaymentIntent h paymentIntentId with
  | Throw e =>
      (Throw e,
       mkWorld (store w) (log w ++ [Do (ConfirmPaymentIntent paymentIntentId)])%list)
  | Ok pi =>
      (payload_of pi,
       mkWorld (review_store pi (store w))
               (log w ++ Do (ConfirmPaymentIntent paymentIntentId)
                      :: review_events pi)%list)
  end.
Proof.
  intros Ht. unfold cards_payment, payload_of, review_events, review_store.
  rewrite Ht. unfold write_stripeIsPaymentIntentInReview. unfold_script.
  destruct (confirmPaymentIntent h _) as [pi | e]; [| reflexivity].
  destruct (truthy (review pi)); simpl;
    destruct (generateCardsPaymentResponse pi); simpl; norm_log; reflexivity.
Qed.

(** The card branch when it does not. *)
Lemma cards_payment_create h basket instrument (w : World Session Action) :
  truthy (stripePaymentIntentID (custom basket)) = false ->
  cards_payment h basket instrument w =
  match createPaymentIntent h instrument with
  | Throw e =>
      (Throw e,
       mkWorld (store w) (log w ++ [Do (CreatePaymentIntent instrument)])%list)
  | Ok pi =>
      (payload_of pi,
       mkWorld (review_store pi
                  (option_map (set_stripePaymentIntentID (id pi)) (store w)))
               (log w ++ [Do (CreatePaymentIntent instrument); TxBegin;
                          Do (WriteStripePaymentIntentID (id pi)); TxCommit]
                      ++ review_events pi)%list)
  end.
Proof.
  intros Ht. unfold cards_payment, payload_of, review_events, review_store.
  rewrite Ht.
  unfold write_stripeIsPaymentIntentInReview, write_stripePaymentIntentID.
  unfold_script.
  destruct (createPaymentIntent h _) as [pi | e]; [| reflexivity].
  destruct (truthy (review pi)); simpl;
    destruct (generateCardsPaymentResponse pi); simpl; norm_log; reflexivity.
Qed.

Lemma bpa_try_card h basket instrument l0 :
  getStripePaymentInstrument h basket = Ok (Some instrument) ->
  paymentMethod instrument = "CREDIT_CARD" ->
  bpa_try h (mkWorld (Some basket) l0)
  = cards_payment h basket instrument (mkWorld (Some basket) l0).
Proof.
  intros Hg Hm. unfold bpa_try, BasketMgr_getCurrentBasket.
  unfold bind at 1. unfold get at 1. simpl.
  unfold bind at 1. unfold lift at 1. rewrite Hg, Hm. reflexivity.
Qed.

(** The catch block leaves basket and log alone. *)
Lemma bpa_catch_world e (w : World Session Action) : snd (bpa_catch e w) = w.
Proof.
  unfold bpa_catch. destruct (callResult e) as [cr |]; [| reflexivity].
  unfold_script. repeat case_step; reflexivity.
Qed.

Lemma bpa_catch_local e (w : World Session Action) :
  callResult e = None ->
  bpa_catch e w = (Ok (Some (ErrorMessage (message e))), w).
Proof. intros H. unfold bpa_catch. rewrite H. reflexivity. Qed.

Lemma member_getProp (err : json) (field : string) :
  err <> JNull -> getProp (Val err) field = Ok (member err field).
Proof. intros H. destruct err; try reflexivity. congruence. Qed.

Lemma bpa_catch_remote e cr err (w : World Session Action) :
  callResult e = Some cr ->
  has_envelope cr err ->
  bpa_catch e w
  = (Ok (Some (ErrorEnvelope (member err "code") (member err "message"))), w).
Proof.
  intros H [props [Ht [Ha Hn]]]. unfold bpa_catch. rewrite H, Ht.
  unfold_script. rewrite Ha.
  rewrite !(member_getProp err _ Hn). reflexivity.
Qed.

Lemma bpa_catch_unwrappable e (w : World Session Action) :
  unwrappable e -> exists payload, bpa_catch e w = (Ok (Some payload), w).
Proof.
  intros H. destruct (callResult e) as [cr |] eqn:E.
  - destruct (H cr E) as [err He].
    eexists. apply (bpa_catch_remote e cr err w E He).
  - eexists. apply (bpa_catch_local e w E).
Qed.

Lemma generateCardsPaymentResponse_throws pi e :
  generateCardsPaymentResponse pi = Throw e -> callResult e = None.
Proof.
  unfold generateCardsPaymentResponse, next_action_type, rbind.
  repeat case_step; try discriminate.
  intros H. injection H as <-. reflexivity.
Qed.

Lemma payload_of_throws pi e : payload_of pi = Throw e -> unwrappable e.
Proof.
  unfold payload_of, rbind.
  destruct (generateCardsPaymentResponse pi) eqn:E; [discriminate |].
  intros H. injection H as <-.
  intros cr Hc. rewrite (generateCardsPaymentResponse_throws _ _ E) in Hc.
  discriminate Hc.
Qed.

Lemma payload_of_some pi : payload_of pi = Ok None -> False.
Proof.
  unfold payload_of, rbind.
  destruct (generateCardsPaymentResponse pi); discriminate.
Qed.

(** Closes a goal in which an unwrappable error reaches the catch block. *)
Ltac caught H :=
  match goal with
  | |- context [bpa_catch ?e ?w] =>
      let p := fresh "p" in
      let Hb := fresh "Hb" in
      destruct (bpa_catch_unwrappable e w H) as [p Hb];
      rewrite Hb; eauto
  end.

Lemma in_review_events pi a :
  In (Do a) (review_events pi) -> a = WriteStripeIsPaymentIntentInReview true.
Proof.
  unfold review_events. destruct (truthy (review pi)).
  - intros [H | [H | [H | []]]]; congruence.
  - intros [].
Qed.

Lemma review_store_keeps_id pi (s : Session) :
  option_map (fun b => stripePaymentIntentID (custom b)) (review_store pi s)
  = option_map (fun b => stripePaymentIntentID (custom b)) s.
Proof.
  unfold review_store. destruct (truthy (review pi)); [| reflexivity].
  destruct s; reflexivity.
Qed.

Lemma snd_caught (r : result (option ResponsePayload)) (w : World Session Action) :
  snd (match r with
       | Ok a => (Ok a, w)
       | Throw e => bpa_catch e w
       end) = w.
Proof. destruct r; [reflexivity | apply bpa_catch_world]. Qed.

(** C2. For a basket holding a Stripe instrument of method CREDIT_CARD:
    when the basket's stripePaymentIntentID is set, the handler confirms
    that intent and creates none; when it is not set, the handler
    creates an intent and, once created, writes its identifier to the
    basket inside one transaction, where it stays. *)
Theorem beforePaymentAuthorization_intent_policy
    (h : CheckoutHelper) (basket : Basket) (instrument : PaymentInstrument)
    (l0 : list (Event Action)) :
  getStripePaymentInstrument h basket = Ok (Some instrument) ->
  paymentMethod instrument = "CREDIT_CARD" ->
  let paymentIntentId := stripePaymentIntentID (custom basket) in
  let w' := snd (beforePaymentAuthorization h (mkWorld (Some basket) l0)) in
  (truthy paymentIntentId = true ->
   exists evs,
     log w' = (l0 ++ Do (ConfirmPaymentIntent (string_of paymentIntentId)) :: evs)%list
     /\ forall i, ~ In (Do (CreatePaymentIntent i)) evs)
  /\ (truthy paymentIntentId = false ->
      (exists evs,
          log w' = (l0 ++ Do (CreatePaymentIntent instrument) :: evs)%list
          /\ forall i, ~ In (Do (ConfirmPaymentIntent i)) evs)
      /\ forall pi,
          createPaymentIntent h instrument = Ok pi ->
          (exists evs,
              log w' = (l0 ++ [Do (CreatePaymentIntent instrument); TxBegin;
                               Do (WriteStripePaymentIntentID (id pi)); TxCommit]
                           ++ evs)%list)
          /\ exists basket',
              store w' = Some basket'
              /\ stripePaymentIntentID (custom basket') = Some (id pi)).
Proof.
  intros Hg Hm paymentIntentId w'. subst w' paymentIntentId.
  unfold beforePaymentAuthorization, try_catch.
  rewrite (bpa_try_card h basket instrument l0 Hg Hm).
  split.
  - intros Ht. rewrite (cards_payment_confirm _ _ _ _ Ht). simpl.
    destruct (confirmPaymentIntent h _) as [pi | e].
    + exists (review_events pi). rewrite snd_caught. split.
      * reflexivity.
      * intros i Hi. apply in_review_events in Hi. discriminate Hi.
    + exists []. rewrite bpa_catch_world. split; [reflexivity | intros i []].
  - intros Ht. rewrite (cards_payment_create _ _ _ _ Ht). simpl.
    destruct (createPaymentIntent h instrument) as [pi | e].
    + rewrite snd_caught. simpl. split.
      * eexists. split; [reflexivity |].
        intros i [H | [H | [H | H]]]; try discriminate H.
        apply in_review_events in H. discriminate H.
      * intros pi' Hpi. injection Hpi as <-. split.
        -- exists (review_events pi). reflexivity.
        -- pose proof (review_store_keeps_id pi
                         (Some (set_stripePaymentIntentID (id pi) basket))) as Hk.
           destruct (review_store pi _) as [b' |]; [| discriminate Hk].
           exists b'. split; [reflexivity |].
           simpl in Hk. congruence.
    + rewrite bpa_catch_world. simpl. split.
      * exists []. split; [reflexivity | intros i []].
      * intros pi Hpi. discriminate Hpi.
Qed.

Lemma beforePaymentAuthorization_intent_policy_witness :
  (exists evs,
      log (snd (beforePaymentAuthorization helper_up
                  (start (Some (card_basket (Some "pi_9"))))))
      = ([] ++ Do (ConfirmPaymentIntent "pi_9") :: evs)%list
      /\ forall i, ~ In (Do (CreatePaymentIntent i)) evs)
  /\ exists basket',
      store (snd (beforePaymentAuthorization helper_up
                    (start (Some (card_basket None)))))
      = Some basket'
      /\ stripePaymentIntentID (custom basket') = Some "pi_1".
Proof.
  split.
  - apply (proj1 (beforePaymentAuthorization_intent_policy helper_up
                    (card_basket (Some "pi_9")) card_instrument []
                    eq_refl eq_refl)).
    reflexivity.
  - apply (proj2 (proj2 (beforePaymentAuthorization_intent_policy helper_up
                           (card_basket None) card_instrument [] eq_refl eq_refl)
                        eq_refl)
                 intent_3ds eq_refl).
Defined.

(** C7, as the code has it.  Without a basket the handler calls
    nothing, writes nothing and returns without throwing.  With a
    basket, and a checkout helper whose errors are all unwrappable, it
    returns a payload and does not throw. *)
Theorem beforePaymentAuthorization_returns (h : CheckoutHelper) :
  (forall l0, exists r,
      beforePaymentAuthorization h (mkWorld None l0) = (Ok r, mkWorld None l0))
  /\ (helper_errors_unwrappable h ->
      forall basket l0, exists payload w',
        beforePaymentAuthorization h (mkWorld (Some basket) l0)
        = (Ok (Some payload), w')).
Proof.
  split.
  - intros l0. exists None. reflexivity.
  - intros [Hget [Hconfirm Hcreate]] basket l0.
    unfold beforePaymentAuthorization, try_catch.
    destruct (getStripePaymentInstrument h basket) as [[instrument |] | e] eqn:Hg.
    + destruct (String.eqb (paymentMethod instrument) "CREDIT_CARD") eqn:Hm.
      * apply String.eqb_eq in Hm.
        rewrite (bpa_try_card h basket instrument l0 Hg Hm).
        destruct (truthy (stripePaymentIntentID (custom basket))) eqn:Ht.
        -- rewrite (cards_payment_confirm _ _ _ _ Ht). simpl.
           destruct (confirmPaymentIntent h _) as [pi | e] eqn:Hc.
           ++ destruct (payload_of pi) as [[p |] | e] eqn:Hp.
              ** eauto.
              ** apply payload_of_some in Hp. contradiction.
              ** caught (payload_of_throws _ _ Hp).
           ++ caught (Hconfirm _ _ Hc).
        -- rewrite (cards_payment_create _ _ _ _ Ht). simpl.
           destruct (createPaymentIntent h instrument) as [pi | e] eqn:Hc.
           ++ destruct (payload_of pi) as [[p |] | e] eqn:Hp.
              ** eauto.
              ** apply payload_of_some in Hp. contradiction.
              ** caught (payload_of_throws _ _ Hp).
           ++ caught (Hcreate _ _ Hc).
      * unfold bpa_try, BasketMgr_getCurrentBasket. unfold_script.
        rewrite Hg, Hm. eauto.
    + unfold bpa_try, BasketMgr_getCurrentBasket. unfold_script.
      rewrite Hg. eauto.
    + unfold bpa_try, BasketMgr_getCurrentBasket.
      unfold bind at 1. unfold get at 1. simpl.
      unfold bind at 1. unfold lift at 1. rewrite Hg.
      caught (Hget _ _ Hg).
Qed.

Lemma declined_helper_unwrappable :
  helper_errors_unwrappable (helper_with_create (Throw card_declined)).
Proof.
  split; [| split].
  - intros basket e H. discriminate H.
  - intros paymentIntentId e H. discriminate H.
  - intros instrument e H. injection H as <-.
    intros cr Hcr. injection Hcr as <-.
    eexists. eexists. split; [reflexivity |]. split; [reflexivity | discriminate].
Defined.

Lemma beforePaymentAuthorization_returns_witness :
  exists payload w',
    beforePaymentAuthorization (helper_with_create (Throw card_declined))
      (mkWorld (Some (card_basket None)) [])
    = (Ok (Some payload), w').
Proof.
  apply (proj2 (beforePaymentAuthorization_returns
                  (helper_with_create (Throw card_declined)))
               declined_helper_unwrappable).
Defined.

(** Without a basket the handler returns [undefined], which is no
    payload and in particular not the success payload; and an error
    whose call result is not an envelope leaves the handler as an
    exception. *)
Lemma beforePaymentAuthorization_counterexample :
  (fst (beforePaymentAuthorization helper_up (start None)) = Ok None
   /\ fst (beforePaymentAuthorization helper_up (start None)) <> Ok (Some Success))
  /\ (fst (beforePaymentAuthorization (helper_with_create (Throw timed_out))
             (start (Some (card_basket None))))
      = Throw unexpected_token
      /\ forall r,
          fst (beforePaymentAuthorization (helper_with_create (Throw timed_out))
                 (start (Some (card_basket None))))
          <> Ok r).
Proof.
  split; split; try reflexivity; discriminate.
Qed.

End BeforePaymentAuthorizationProps.
(** ** Properties of the payment hooks *)

Module StripeHooksProps.

Import StripeHooks Scenarios.

Ltac unfold_hook :=
  unfold authorize_try, authorize_catch, billingDetails_of, read,
    setPaymentStatus, write_stripePaymentIntentID in *.

(** The hook is its try block, started after the debug line, followed
    by the catch block when the try block throws. *)
Lemma authorizeCreditCard_run dw pi cvc (w : World Order Action) :
  authorizeCreditCard dw pi cvc w =
  match authorize_try dw pi cvc (entered w) with
  | (Ok _, w1) => (Ok (new_Status OK Undefined), w1)
  | (Throw e, w1) => authorize_catch e w1
  end.
Proof.
  unfold authorizeCreditCard, entered. unfold_script.
  destruct (authorize_try dw pi cvc _) as [[[] | e] w1]; [reflexivity |].
  destruct (authorize_catch e w1) as [[st | e'] w2]; reflexivity.
Qed.

Lemma authorize_catch_local e (w : World Order Action) :
  callResult e = None ->
  authorize_catch e w
  = (Ok (new_Status ERROR (Val (JString (message e)))), logged_error e w).
Proof. intros H. unfold authorize_catch. rewrite H. reflexivity. Qed.

Lemma authorize_catch_remote e cr err (w : World Order Action) :
  callResult e = Some cr ->
  has_envelope cr err ->
  authorize_catch e w
  = (Ok (new_Status ERROR (member err "message")), logged_error e w).
Proof.
  intros H [props [Ht [Ha Hn]]]. unfold authorize_catch. rewrite H, Ht.
  unfold_script. rewrite Ha.
  rewrite (BeforePaymentAuthorizationProps.member_getProp err _ Hn). reflexivity.
Qed.

(** The catch block returns an ERROR status or throws; it writes to the
    log at most, never to the order. *)
Lemma authorize_catch_cases e (w : World Order Action) :
  (exists m, authorize_catch e w = (Ok (new_Status ERROR m), logged_error e w))
  \/ (exists e', authorize_catch e w = (Throw e', w)).
Proof.
  unfold authorize_catch, logged_error. unfold_script.
  repeat case_step; eauto.
Qed.

Lemma quiet_app evs1 evs2 : quiet evs1 -> quiet evs2 -> quiet (evs1 ++ evs2).
Proof.
  unfold quiet. intros H1 H2. rewrite forallb_app, H1, H2. reflexivity.
Qed.

(** How the try block ends.  Up to the reply to the PaymentIntent
    request it only calls out ([pre]); then either it throws with the
    order as it was, no succeeded intent having come back, or the intent
    has succeeded and the two writes run in one transaction, committed
    or, when the status write throws, rolled back. *)
Lemma authorize_try_outcome dw pi cvc (w : World Order Action) :
  exists pre,
    quiet pre
    /\ ((exists e,
            authorize_try dw pi cvc w
            = (Throw e, mkWorld (store w) (log w ++ pre)%list)
            /\ forall req intent,
                In (Do (PaymentIntentsCreate req)) pre ->
                paymentIntents_create dw req = Ok intent ->
                pi_status intent <> "succeeded")
        \/ (exists req intent,
               (forall req', In (Do (PaymentIntentsCreate req')) pre -> req' = req)
               /\ paymentIntents_create dw req = Ok intent
               /\ pi_status intent = "succeeded"
               /\ authorize_try dw pi cvc w
                  = match setPaymentStatus_throws dw with
                    | None =>
                        (Ok tt,
                         mkWorld (paid_with (pi_id intent) (store w))
                           (log w ++ pre
                              ++ [TxBegin;
                                  Do (WriteStripePaymentIntentID (pi_id intent));
                                  Do (SetPaymentStatus PAYMENT_STATUS_PAID);
                                  TxCommit])%list)
                    | Some e =>
                        (Throw e,
                         mkWorld (store w)
                           (log w ++ pre
                              ++ [TxBegin;
                                  Do (WriteStripePaymentIntentID (pi_id intent));
                                  TxRollback])%list)
                    end)).
Proof.
  unfold_hook. unfold_script.
  destruct (available (amount pi)); simpl.
  2: { exists []. split; [reflexivity |]. left. eexists.
       rewrite app_nil_r. destruct w. split; [reflexivity | intros ? ? []]. }
  destruct (Currency_getCurrency dw _) as [cur |]; simpl.
  2: { exists []. split; [reflexivity |]. left. eexists.
       rewrite app_nil_r. destruct w. split; [reflexivity | intros ? ? []]. }
  destruct (billingAddress (store w)) as [address |]; simpl.
  2: { exists []. split; [reflexivity |]. left. eexists.
       rewrite app_nil_r. destruct w. split; [reflexivity | intros ? ? []]. }
  destruct (countryCode address) as [country |]; simpl.
  2: { exists []. split; [reflexivity |]. left. eexists.
       rewrite app_nil_r. destruct w. split; [reflexivity | intros ? ? []]. }
  match goal with
  | |- context [paymentMethods_create dw ?r] => set (pm_request := r)
  end.
  destruct (paymentMethods_create dw pm_request) as [pm | e]; simpl.
  2: { exists [Do (PaymentMethodsCreate pm_request)]. split; [reflexivity |].
       left. eexists. split; [reflexivity |].
       intros ? ? [H | []]. discriminate H. }
  match goal with
  | |- context [paymentIntents_create dw ?r] => set (pi_request := r)
  end.
  destruct (paymentIntents_create dw pi_request) as [intent | e] eqn:Hpi; simpl.
  2: { exists [Do (PaymentMethodsCreate pm_request);
               Do (PaymentIntentsCreate pi_request)].
       split; [reflexivity |]. left. eexists.
       rewrite <- app_assoc. split; [reflexivity |].
       intros req intent [H | [H | []]]; [discriminate H |].
       injection H as <-. rewrite Hpi. discriminate. }
  exists [Do (PaymentMethodsCreate pm_request);
          Do (PaymentIntentsCreate pi_request)].
  split; [reflexivity |].
  destruct (String.eqb (pi_status intent) "succeeded") eqn:Hs.
  - right. exists pi_request, intent. apply String.eqb_eq in Hs.
    repeat split; try assumption.
    + intros req' [H | [H | []]]; [discriminate H |].
      injection H as <-. reflexivity.
    + destruct (setPaymentStatus_throws dw); simpl;
        rewrite <- !app_assoc; reflexivity.
  - left. eexists. rewrite <- app_assoc. split; [reflexivity |].
    intros req intent' [H | [H | []]]; [discriminate H |].
    injection H as <-. rewrite Hpi. intros H. injection H as <-.
    apply String.eqb_neq. exact Hs.
Qed.

Lemma not_quiet_in (ev : Event Action) evs :
  quiet evs -> In ev evs -> touches_order ev = false.
Proof.
  unfold quiet. intros Hq Hin.
  rewrite forallb_forall in Hq. specialize (Hq ev Hin).
  destruct (touches_order ev); [discriminate Hq | reflexivity].
Qed.

(** The one PaymentIntent request of a run, and so its reply, are
    those of the try block. *)
Lemma same_intent dw (pre tail : list (Event Action)) req req0 intent intent0 :
  (forall req', In (Do (PaymentIntentsCreate req')) pre -> req' = req0) ->
  paymentIntents_create dw req0 = Ok intent0 ->
  paymentIntents_create dw req = Ok intent ->
  (forall req', ~ In (Do (PaymentIntentsCreate req')) tail) ->
  In (Do (PaymentIntentsCreate req)) ([Do LoggerDebug] ++ pre ++ tail) ->
  intent0 = intent.
Proof.
  intros Huniq Hr Hreq Htail Hin.
  change ([Do LoggerDebug] ++ pre ++ tail)%list
    with (Do LoggerDebug :: pre ++ tail)%list in Hin.
  destruct Hin as [Hin | Hin]; [discriminate Hin |].
  apply in_app_or in Hin. destruct Hin as [Hin | Hin].
  - rewrite (Huniq req Hin) in Hreq. congruence.
  - exfalso. exact (Htail req Hin).
Qed.

(** C4. The order after the hook is the order before it, or that order
    with both writes applied; and when a PaymentIntent request was
    answered with status succeeded, the run holds exactly one
    transaction, which contains the write of the intent identifier and
    the payment status write and is committed with both in force, or is
    rolled back with neither. *)
Theorem authorizeCreditCard_atomic dw pi cvc (w : World Order Action) :
  let w' := snd (authorizeCreditCard dw pi cvc w) in
  (store w' = store w
   \/ exists paymentIntentId, store w' = paid_with paymentIntentId (store w))
  /\ forall req intent evs,
      log w' = (log w ++ evs)%list ->
      In (Do (PaymentIntentsCreate req)) evs ->
      paymentIntents_create dw req = Ok intent ->
      pi_status intent = "succeeded" ->
      exists pre post,
        quiet pre /\ quiet post
        /\ ((evs = (pre ++ [TxBegin;
                            Do (WriteStripePaymentIntentID (pi_id intent));
                            Do (SetPaymentStatus PAYMENT_STATUS_PAID);
                            TxCommit] ++ post)%list
             /\ store w' = paid_with (pi_id intent) (store w))
            \/ (evs = (pre ++ [TxBegin;
                               Do (WriteStripePaymentIntentID (pi_id intent));
                               TxRollback] ++ post)%list
                /\ store w' = store w)).
Proof.
  intros w'. subst w'. rewrite authorizeCreditCard_run.
  destruct (authorize_try_outcome dw pi cvc (entered w))
    as [pre [Hq [[e [Ht Hno]] | [req0 [intent0 [Huniq [Hr [Hs Ht]]]]]]]].
  - rewrite Ht. split.
    + left. destruct (authorize_catch_cases e
                        {| store := store (entered w); log := (log (entered w) ++ pre)%list |})
        as [[m Hc] | [e' Hc]]; rewrite Hc; reflexivity.
    + intros req intent evs Hlog Hin Hreq Hst. exfalso.
      apply (Hno req intent); try assumption.
      destruct (authorize_catch_cases e
                  {| store := store (entered w); log := (log (entered w) ++ pre)%list |})
        as [[m Hc] | [e' Hc]]; rewrite Hc in Hlog; simpl in Hlog;
        rewrite <- !app_assoc in Hlog; apply app_inv_head in Hlog; subst evs;
        simpl in Hin; destruct Hin as [Hin | Hin]; try discriminate Hin.
      * apply in_app_or in Hin. destruct Hin as [Hin | [Hin | []]];
          [exact Hin | discriminate Hin].
      * exact Hin.
  - rewrite Ht. clear Ht.
    destruct (setPaymentStatus_throws dw) as [e |].
    + split.
      * left. match goal with
              | |- context [authorize_catch e ?w1] =>
                  destruct (authorize_catch_cases e w1) as [[m Hc] | [e' Hc]]
              end; rewrite Hc; reflexivity.
      * intros req intent evs Hlog Hin Hreq Hst.
        match type of Hlog with
        | context [authorize_catch e ?w1] =>
            destruct (authorize_catch_cases e w1) as [[m Hc] | [e' Hc]]
        end; rewrite Hc in Hlog |- *; simpl in Hlog;
          rewrite <- !app_assoc in Hlog; apply app_inv_head in Hlog; subst evs.
        -- apply (same_intent dw pre _ req req0 intent intent0 Huniq Hr Hreq) in Hin;
             [subst intent0 | intros r H; simpl in H; intuition discriminate].
           exists (Do LoggerDebug :: pre), [Do (LoggerError (message e))].
           repeat split; [exact Hq |]. right. split; [| reflexivity].
           simpl. reflexivity.
        -- apply (same_intent dw pre _ req req0 intent intent0 Huniq Hr Hreq) in Hin;
             [subst intent0 | intros r H; simpl in H; intuition discriminate].
           exists (Do LoggerDebug :: pre), [].
           repeat split; [exact Hq |]. right. split; [| reflexivity].
           simpl. reflexivity.
    + simpl. split.
      * right. exists (pi_id intent0). reflexivity.
      * intros req intent evs Hlog Hin Hreq Hst.
        rewrite <- !app_assoc in Hlog; apply app_inv_head in Hlog; subst evs.
        apply (same_intent dw pre _ req req0 intent intent0 Huniq Hr Hreq) in Hin;
          [subst intent0 | intros r H; simpl in H; intuition discriminate].
        exists (Do LoggerDebug :: pre), [].
        repeat split; [exact Hq |]. left. split; reflexivity.
Qed.

Lemma authorizeCreditCard_atomic_witness :
  exists pre post,
    quiet pre /\ quiet post
    /\ ((events_1
         = (pre ++ [TxBegin; Do (WriteStripePaymentIntentID (pi_id pi_succeeded));
                    Do (SetPaymentStatus PAYMENT_STATUS_PAID); TxCommit]
                ++ post)%list
         /\ store (snd (authorizeCreditCard dw_up visa "123" (placed order_1)))
            = paid_with (pi_id pi_succeeded) (store (placed order_1)))
        \/ (events_1
            = (pre ++ [TxBegin; Do (WriteStripePaymentIntentID (pi_id pi_succeeded));
                       TxRollback] ++ post)%list
            /\ store (snd (authorizeCreditCard dw_up visa "123" (placed order_1)))
               = store (placed order_1))).
Proof.
  apply (proj2 (authorizeCreditCard_atomic dw_up visa "123" (placed order_1))
               pi_request_1 pi_succeeded events_1).
  - vm_compute. reflexivity.
  - simpl. right. right. left. reflexivity.
  - reflexivity.
  - reflexivity.
Defined.
Lemma quiet_no_commit (evs : list (Event Action)) : quiet evs -> ~ In TxCommit evs.
Proof.
  intros Hq Hin. pose proof (not_quiet_in _ _ Hq Hin) as H. discriminate H.
Qed.

(** C9. When the hook returns a Status of level ERROR, the order is
    what it was before the call: neither the intent identifier nor the
    payment status has changed, and no transaction was committed. *)
Theorem authorizeCreditCard_failure_frame dw pi cvc (w w' : World Order Action) st :
  authorizeCreditCard dw pi cvc w = (Ok st, w') ->
  status_level st = ERROR ->
  store w' = store w
  /\ stripePaymentIntentID (store w') = stripePaymentIntentID (store w)
  /\ paymentStatus (store w') = paymentStatus (store w)
  /\ forall evs, log w' = (log w ++ evs)%list -> ~ In TxCommit evs.
Proof.
  rewrite authorizeCreditCard_run. intros Hrun Hlevel.
  assert (Hgoal : store w' = store w
                  /\ forall evs, log w' = (log w ++ evs)%list -> ~ In TxCommit evs).
  { destruct (authorize_try_outcome dw pi cvc (entered w))
      as [pre [Hq [[e [Ht Hno]] | [req0 [intent0 [Huniq [Hr [Hs Ht]]]]]]]].
    - rewrite Ht in Hrun.
      match type of Hrun with
      | context [authorize_catch e ?w1] =>
          destruct (authorize_catch_cases e w1) as [[m Hc] | [e' Hc]]
      end; rewrite Hc in Hrun; [| discriminate Hrun].
      injection Hrun as _ <-. simpl. split; [reflexivity |].
      intros evs Hlog. rewrite <- !app_assoc in Hlog.
      apply app_inv_head in Hlog. subst evs.
      apply quiet_no_commit.
      apply (quiet_app [Do LoggerDebug]); [reflexivity |].
      apply quiet_app; [exact Hq | reflexivity].
    - rewrite Ht in Hrun. clear Ht.
      destruct (setPaymentStatus_throws dw) as [e |].
      + match type of Hrun with
        | context [authorize_catch e ?w1] =>
            destruct (authorize_catch_cases e w1) as [[m Hc] | [e' Hc]]
        end; rewrite Hc in Hrun; [| discriminate Hrun].
        injection Hrun as _ <-. simpl. split; [reflexivity |].
        intros evs Hlog. rewrite <- !app_assoc in Hlog.
        apply app_inv_head in Hlog. subst evs.
        intros Hin. simpl in Hin. destruct Hin as [Hin | Hin]; [discriminate Hin |].
        apply in_app_or in Hin. destruct Hin as [Hin | Hin].
        * exact (quiet_no_commit _ Hq Hin).
        * simpl in Hin. intuition discriminate.
      + injection Hrun as <- _. discriminate Hlevel. }
  destruct Hgoal as [Hstore Hlog]. rewrite Hstore. auto.
Qed.

Lemma authorizeCreditCard_failure_frame_witness :
  store (snd (authorizeCreditCard (dw_with (Throw card_declined) (Ok pi_succeeded) None)
                visa "123" (placed order_1)))
  = order_1.
Proof.
  apply (authorizeCreditCard_failure_frame
           (dw_with (Throw card_declined) (Ok pi_succeeded) None)
           visa "123" (placed order_1) _
           (new_Status ERROR (Val (JString "Your card was declined.")))).
  - reflexivity.
  - reflexivity.
Defined.

(** C8. The hook for every method other than cards returns a Status of
    level ERROR with the text 'Not supported', whatever the order and
    the instrument; its level is never OK. *)
Theorem authorize_not_supported (order : Order) (paymentInstrument : OrderPaymentInstrument) :
  authorize order paymentInstrument = new_Status ERROR (Val (JString "Not supported"))
  /\ status_level (authorize order paymentInstrument) <> OK.
Proof. split; [reflexivity | discriminate]. Qed.

End StripeHooksProps.

(** ** The error boundary of the two authorization handlers *)

Module ErrorBoundaryProps.

Import Scenarios.

(** C6, as the code has it.  For every error caught at the boundary of
    [authorizeCreditCard] or of [beforePaymentAuthorization]: when the
    error carries no call result, the handler returns a failure result
    with the error's own message; when it carries a call result holding
    an error envelope, the handler returns a failure result with the
    [message] member of the envelope's [error] (and, for
    [beforePaymentAuthorization], its [code] member). *)
Theorem caught_errors_are_unwrapped :
  (forall dw pi cvc (w w1 : World StripeHooks.Order StripeHooks.Action) e,
      StripeHooks.authorize_try dw pi cvc (entered w) = (Throw e, w1) ->
      (callResult e = None ->
       fst (StripeHooks.authorizeCreditCard dw pi cvc w)
       = Ok (StripeHooks.new_Status StripeHooks.ERROR (Val (JString (message e)))))
      /\ (forall cr err,
             callResult e = Some cr ->
             has_envelope cr err ->
             fst (StripeHooks.authorizeCreditCard dw pi cvc w)
             = Ok (StripeHooks.new_Status StripeHooks.ERROR (member err "message"))))
  /\ (forall h (w w1 : World StripePaymentsHelper.Session StripePaymentsHelper.Action) e,
         StripePaymentsHelper.bpa_try h w = (Throw e, w1) ->
         (callResult e = None ->
          fst (StripePaymentsHelper.beforePaymentAuthorization h w)
          = Ok (Some (StripePaymentsHelper.ErrorMessage (message e))))
         /\ (forall cr err,
                callResult e = Some cr ->
                has_envelope cr err ->
                fst (StripePaymentsHelper.beforePaymentAuthorization h w)
                = Ok (Some (StripePaymentsHelper.ErrorEnvelope
                              (member err "code") (member err "message"))))).
Proof.
  split.
  - intros dw pi cvc w w1 e Htry.
    rewrite StripeHooksProps.authorizeCreditCard_run, Htry. split.
    + intros Hc. rewrite (StripeHooksProps.authorize_catch_local e w1 Hc). reflexivity.
    + intros cr err Hc He.
      rewrite (StripeHooksProps.authorize_catch_remote e cr err w1 Hc He). reflexivity.
  - intros h w w1 e Htry.
    unfold StripePaymentsHelper.beforePaymentAuthorization, try_catch.
    rewrite Htry. split.
    + intros Hc.
      rewrite (BeforePaymentAuthorizationProps.bpa_catch_local e w1 Hc). reflexivity.
    + intros cr err Hc He.
      rewrite (BeforePaymentAuthorizationProps.bpa_catch_remote e cr err w1 Hc He).
      reflexivity.
Qed.

Lemma card_declined_envelope :
  has_envelope {| errorMessage :=
                    JsonText (JObject [("error",
                      JObject [("code", JString "card_declined");
                               ("message", JString "Your card was declined.")])]) |}
               (JObject [("code", JString "card_declined");
                         ("message", JString "Your card was declined.")]).
Proof.
  eexists. split; [reflexivity |]. split; [reflexivity | discriminate].
Defined.

Lemma caught_errors_are_unwrapped_witness :
  fst (StripeHooks.authorizeCreditCard
         (dw_with (Ok pm_1) (Throw card_declined) None) visa "123" (placed order_1))
  = Ok (StripeHooks.new_Status StripeHooks.ERROR (Val (JString "Your card was declined.")))
  /\ fst (StripePaymentsHelper.beforePaymentAuthorization
            (helper_with_create (Throw card_declined))
            (start (Some (card_basket None))))
     = Ok (Some (StripePaymentsHelper.ErrorEnvelope
                   (Val (JString "card_declined"))
                   (Val (JString "Your card was declined.")))).
Proof.
  split.
  - apply (proj2 (proj1 caught_errors_are_unwrapped
                    (dw_with (Ok pm_1) (Throw card_declined) None) visa "123"
                    (placed order_1) _ card_declined eq_refl)
                 _ _ eq_refl card_declined_envelope).
  - apply (proj2 (proj2 caught_errors_are_unwrapped
                    (helper_with_create (Throw card_declined))
                    (start (Some (card_basket None))) _ card_declined eq_refl)
                 _ _ eq_refl card_declined_envelope).
Defined.

(** An error whose call result is not an envelope leaves
    [authorizeCreditCard] as an exception: no Status is returned. *)
Lemma caught_errors_counterexample :
  StripeHooks.authorize_try (dw_with (Throw timed_out) (Ok pi_succeeded) None)
    visa "123" (entered (placed order_1))
  = (Throw timed_out,
     mkWorld order_1
       [Do StripeHooks.LoggerDebug; Do (StripeHooks.PaymentMethodsCreate pm_request_1)])
  /\ callResult timed_out = Some {| errorMessage := MalformedText |}
  /\ fst (StripeHooks.authorizeCreditCard
            (dw_with (Throw timed_out) (Ok pi_succeeded) None)
            visa "123" (placed order_1))
     = Throw unexpected_token.
Proof. repeat split. Qed.

End ErrorBoundaryProps.

(** ** The amount sent to the processor *)

Module MinorUnitsProps.

Import Number StripeHooks Scenarios.

Local Open Scope Z_scope.

(** Every PaymentIntent request of the try block carries the amount
    computed on lines 33 to 35. *)
Lemma authorize_try_amount dw pi cvc (w : World Order Action) req :
  In (Do (PaymentIntentsCreate req)) (log (snd (authorize_try dw pi cvc w))) ->
  In (Do (PaymentIntentsCreate req)) (log w)
  \/ exists cur,
      Currency_getCurrency dw (currencyCode (amount pi)) = Some cur
      /\ pi_amount req = minor_units (value (amount pi)) cur.
Proof.
  unfold authorize_try, billingDetails_of, read, setPaymentStatus,
    write_stripePaymentIntentID.
  unfold_script.
  repeat case_step; cbn [snd log]; intros Hin;
    repeat (apply in_app_or in Hin; destruct Hin as [Hin | Hin]);
    try (left; exact Hin);
    cbn [In] in Hin;
    repeat match type of Hin with
           | _ \/ _ => destruct Hin as [Hin | Hin]
           end;
    try discriminate Hin; try contradiction;
    right; injection Hin as <-; eexists; split; reflexivity.
Qed.

(** C3, as the code has it.  The amount of every PaymentIntent request
    sent by [authorizeCreditCard] is
    [Math.round(amount.value * Math.pow(10, fractionDigits))], computed
    on Numbers, [fractionDigits] being the default fraction digits of
    the amount's currency.  For a currency without decimals every whole
    amount held in a Number below 2^53 is sent as it is.  For a currency
    with two decimals an amount of [k] hundredths, held in the Number
    nearest to [k] / 100, is sent as [k] as long as [k] is below
    100 * 2^45 in magnitude. *)
Theorem minor_units_conversion :
  (forall dw pi cvc (w : World Order Action) req,
      In (Do (PaymentIntentsCreate req))
         (log (snd (authorizeCreditCard dw pi cvc w))) ->
      ~ In (Do (PaymentIntentsCreate req)) (log w) ->
      exists cur,
        Currency_getCurrency dw (currencyCode (amount pi)) = Some cur
        /\ pi_amount req
           = Math_round (mul (value (amount pi))
                             (Math_pow10 (defaultFractionDigits cur))))
  /\ (forall cur a k,
         defaultFractionDigits cur = 0%nat ->
         nearest_decimal 0 a k ->
         is_integer (minor_units a cur) k)
  /\ (forall cur a k,
         defaultFractionDigits cur = 2%nat ->
         nearest_decimal 2 a k ->
         Z.abs k < 100 * 2 ^ 45 ->
         is_integer (minor_units a cur) k).
Proof.
  split; [| split].
  - intros dw pi cvc w req Hin Hnew.
    rewrite StripeHooksProps.authorizeCreditCard_run in Hin.
    assert (Htry : In (Do (PaymentIntentsCreate req))
                      (log (snd (authorize_try dw pi cvc (entered w))))).
    { destruct (authorize_try dw pi cvc (entered w)) as [[[] | e] w1];
        [exact Hin |].
      destruct (StripeHooksProps.authorize_catch_cases e w1)
        as [[m Hc] | [e' Hc]]; rewrite Hc in Hin; [| exact Hin].
      cbn [snd logged_error log] in Hin.
      apply in_app_or in Hin. destruct Hin as [Hin | [Hin | []]];
        [exact Hin | discriminate Hin]. }
    destruct (authorize_try_amount dw pi cvc (entered w) req Htry)
      as [Hold | Hcur].
    + exfalso. cbn [entered log] in Hold.
      apply in_app_or in Hold. destruct Hold as [Hold | [Hold | []]];
        [exact (Hnew Hold) | discriminate Hold].
    + exact Hcur.
  - intros cur a k Hfd Hnear. unfold minor_units. rewrite Hfd.
    destruct a as [s | s | | s ma ea]; cbn [nearest_decimal] in Hnear;
      try contradiction.
    + subst k. reflexivity.
    + apply NumberProps.units_round_trip. exact Hnear.
  - intros cur a k Hfd Hnear Hk. unfold minor_units. rewrite Hfd.
    destruct a as [s | s | | s ma ea]; cbn [nearest_decimal] in Hnear;
      try contradiction.
    + subst k. reflexivity.
    + apply NumberProps.cents_round_trip; assumption.
Qed.

Lemma n_19_99_nearest : nearest_decimal 2 n_19_99 1999.
Proof. unfold nearest_decimal, n_19_99. cbn. lia. Defined.

Lemma n_500_nearest : nearest_decimal 0 n_500 500.
Proof. unfold nearest_decimal, n_500. cbn. lia. Defined.

Lemma minor_units_conversion_witness :
  (exists cur,
      Currency_getCurrency dw_up (currencyCode (amount visa)) = Some cur
      /\ pi_amount pi_request_1
         = Math_round (mul (value (amount visa))
                           (Math_pow10 (defaultFractionDigits cur))))
  /\ is_integer (minor_units n_500 jpy) 500
  /\ is_integer (minor_units n_19_99 usd) 1999.
Proof.
  split; [| split].
  - apply (proj1 minor_units_conversion dw_up visa "123"%string (placed order_1)
                 pi_request_1).
    + vm_compute. right. right. left. reflexivity.
    + intros [].
  - apply (proj1 (proj2 minor_units_conversion) jpy n_500 500 eq_refl
                 n_500_nearest).
  - apply (proj2 (proj2 minor_units_conversion) usd n_19_99 1999 eq_refl
                 n_19_99_nearest).
    vm_compute. reflexivity.
Defined.

(** 35184372088832.02 in a currency with two decimals is sent as
    3518437208883203 hundredths, one more than it holds. *)
Lemma minor_units_counterexample :
  nearest_decimal 2 n_35e12 cents_35e12
  /\ SFdiv prec emax (of_Z cents_35e12) (of_Z 100) = n_35e12
  /\ minor_units n_35e12 usd = of_Z (cents_35e12 + 1)
  /\ is_integer (minor_units n_35e12 usd) (cents_35e12 + 1)
  /\ ~ is_integer (minor_units n_35e12 usd) cents_35e12.
Proof.
  split; [| split; [| split; [| split]]].
  - unfold nearest_decimal, n_35e12, cents_35e12. cbn. lia.
  - vm_compute. reflexivity.
  - vm_compute. reflexivity.
  - vm_compute. reflexivity.
  - vm_compute. intros H. discriminate H.
Qed.

End MinorUnitsProps.
